(** * bsplinelab: knot indexing, de Casteljau evaluation and the C2 solver

    A shallow embedding of [spline.py] (classes [Knots], [BSpline], [Bezier],
    function [geodesic]) and of [bspline/symmetric.py] (class [Interpolator]).

    Numbers.  The Python code computes with IEEE doubles.  The code is
    embedded twice.  Properties of the control flow, of indices and of
    shapes are proved on an embedding over the rationals [Q], compared with
    [==]: there [ktol] is the exact value of the double 1e-13, [tolerance]
    the rational 1e-12, the machine epsilon 2^-52, and a division whose
    denominator is exactly zero (numpy would warn and produce inf or nan,
    which [Q] cannot hold) is flagged as [ZeroDivision].  Properties that
    depend on rounding are proved on the module [Float64], where the same
    functions compute with binary64 numbers (round to nearest, ties to
    even), every operation rounded as numpy rounds it.

    Exceptions.  Fallible code returns [result]: [Ok v] or [Raise e]. *)

From Stdlib Require Import ZArith QArith Qabs Qreduction List Bool String Lia Lqa.
From Stdlib Require Import Floats.
Import ListNotations.

Set Implicit Arguments.

(** ** Python and numpy primitives *)

Inductive exn : Type :=
| ValueError (msg : string)
| IndexError
| NameError
| ZeroDivision.

Inductive result (E A : Type) : Type :=
| Ok (a : A)
| Raise (e : E).

Arguments Ok {E A} a.
Arguments Raise {E A} e.

Definition bind {E A B} (c : result E A) (k : A -> result E B) : result E B :=
  match c with
  | Ok a => k a
  | Raise e => Raise e
  end.

Notation "x <- c ;; k" := (bind c (fun x => k))
  (at level 61, c at next level, right associativity).

Definition raises {E A} (c : result E A) : Prop :=
  match c with Ok _ => False | Raise _ => True end.

Definition returns {E A} (c : result E A) : Prop :=
  match c with Ok _ => True | Raise _ => False end.

Definition len {A} (l : list A) : Z := Z.of_nat (List.length l).

(** Bound of a slice [l[i:]] or [l[:i]] for a list of length [n]: a negative
    bound counts from the end, and both are clamped to [0..n]. *)
Definition py_bound (n i : Z) : Z :=
  (if i <? 0 then Z.max (i + n) 0 else Z.min i n)%Z.

(** [l[start:stop]]; [None] is an omitted bound. *)
Definition py_slice {A} (l : list A) (start stop : option Z) : list A :=
  let n := len l in
  let s := match start with Some i => py_bound n i | None => 0%Z end in
  let e := match stop with Some j => py_bound n j | None => n end in
  firstn (Z.to_nat (e - s)) (skipn (Z.to_nat s) l).

(** [l[i]]: negative indices count from the end, out of range raises. *)
Definition py_getitem {A} (l : list A) (i : Z) : result exn A :=
  let j := (if i <? 0 then i + len l else i)%Z in
  if (j <? 0)%Z then Raise IndexError
  else match nth_error l (Z.to_nat j) with
       | Some a => Ok a
       | None => Raise IndexError
       end.

Fixpoint map2 {A B C} (f : A -> B -> C) (xs : list A) (ys : list B) : list C :=
  match xs, ys with
  | x :: xs', y :: ys' => f x y :: map2 f xs' ys'
  | _, _ => []
  end.

(** [np.all] of a boolean array. *)
Definition np_all (bs : list bool) : bool := forallb (fun b => b) bs.

(** [np.argmax] of a boolean array: the first [True], or 0 when there is
    none (every entry is then a maximum and the first one wins). *)
Fixpoint np_argmax (bs : list bool) : Z :=
  match bs with
  | [] => 0
  | true :: _ => 0
  | false :: bs' => if existsb (fun b => b) bs' then 1 + np_argmax bs' else 0
  end%Z.

(** [x > y] on rationals, as a boolean. *)
Definition Qgt_bool (x y : Q) : bool := negb (Qle_bool x y).

(** [np.ones(n)]. *)
Definition np_ones (n : Z) : result exn (list Q) :=
  if (n <? 0)%Z then Raise (ValueError "negative dimensions are not allowed")
  else Ok (repeat 1%Q (Z.to_nat n)).

Fixpoint dot (a v : list Q) : Q :=
  match a, v with
  | x :: a', y :: v' => x * y + dot a' v'
  | _, _ => 0
  end%Q.

(** [correlate(a, v, 'valid')] for [len v <= len a]: entry [k] is the sum
    of [a[k+j] * v[j]]. *)
Fixpoint correlate_valid (a v : list Q) : list Q :=
  match a with
  | [] => []
  | _ :: a' =>
      if (List.length v <=? List.length a)%nat
      then dot a v :: correlate_valid a' v
      else []
  end.

(** [np.convolve(a, v, 'valid')]: the longer array is taken first, then
    the two are checked, and the shorter one is reversed and slid along
    the longer one. *)
Definition np_convolve_valid (a v : list Q) : result exn (list Q) :=
  let (a, v) := if (List.length a <? List.length v)%nat then (v, a) else (a, v) in
  match a, v with
  | [], _ => Raise (ValueError "a cannot be empty")
  | _, [] => Raise (ValueError "v cannot be empty")
  | _, _ => Ok (correlate_valid a (rev v))
  end.

(** [np.finfo(float).eps] for doubles. *)
Definition eps : Q := 1 # (2 ^ 52).

(** Division of two entries, flagged when the denominator is zero. *)
Definition np_divide (x y : Q) : result exn Q :=
  if Qeq_bool y 0 then Raise ZeroDivision else Ok (x / y)%Q.

Fixpoint sequence {E A} (cs : list (result E A)) : result E (list A) :=
  match cs with
  | [] => Ok []
  | c :: cs' => a <- c ;; r <- sequence cs' ;; Ok (a :: r)
  end.

(** A point of the target space: the row of coordinates. *)
Definition point : Type := list Q.

(** [np.array(rows, float)] on a list of rows: the rows must have one
    length, numpy raises a ValueError otherwise. *)
Definition np_array {A} (rows : list (list A)) : result exn (list (list A)) :=
  match rows with
  | [] => Ok []
  | r :: rest =>
      if forallb (fun p => (List.length p =? List.length r)%nat) rest
      then Ok rows
      else Raise (ValueError "setting an array element with a sequence.")
  end.

(** ** spline.py *)

(** [geodesic(P1, P2, theta)] on one pair of points. *)
Definition geodesic (P1 P2 : point) (theta : Q) : point :=
  map2 (fun a b => (1 - theta) * a + theta * b)%Q P1 P2.

Module Knots.

Record t : Type := mk { knots : list Q; length : Z }.

(** [Knots.__init__(knots, degree)]. *)
Definition init (knots : list Q) (degree : Z) : t :=
  mk knots (degree - 1).

Definition degree (self : t) : Z := (length self + 1)%Z.

Definition nb_curves (self : t) : Z :=
  (len (knots self) - 2 * length self - 1)%Z.

(** [ktol = 1e-13]: the double nearest to 1e-13, 0x1.c25c268497682p-44. *)
Definition ktol : Q := 7922816251426434 # (2 ^ 96).

(** The usable window [knots[length:-length]]. *)
Definition window (self : t) : list Q :=
  py_slice (knots self) (Some (length self)) (Some (- length self)%Z).

Definition left_knot (self : t) (tm : Q) : result exn Z :=
  let diff := map (fun k => k - tm)%Q (window self) in
  let isrightof := map (fun d => Qgt_bool d ktol) diff in
  if np_all isrightof then Raise (ValueError "Time too small")
  else if np_all (map negb isrightof) then Raise (ValueError "Time too big")
  else
    let left := (np_argmax isrightof - 1)%Z in
    Ok (left + length self)%Z.

Definition knot_range (self : t) : list Z :=
  if (length self <? 0)%Z then []
  else map (fun i => length self + Z.of_nat i)%Z
           (seq 0 (Z.to_nat (nb_curves self))).

Definition abscissae (self : t) : result exn (list Q) :=
  ones <- np_ones (degree self) ;;
  let kernel := map (fun x => x / inject_Z (degree self))%Q ones in
  np_convolve_valid kernel (knots self).

End Knots.

Module BSpline.

Record t : Type := mk { base : Knots.t; control_points : list point }.

(** [BSpline.__init__(knots, control_points)]: the degree is derived from
    the two lengths; the conversion of the control points to an array is
    the one statement that can raise. *)
Definition init (knots : list Q) (control_points : list point) : result exn t :=
  let degree := (len knots - len control_points + 1)%Z in
  let base := Knots.init knots degree in
  control_points <- np_array control_points ;;
  Ok (mk base control_points).

(** [reversed(1 + np.arange(degree))]: degree, degree-1, ..., 1. *)
Definition rounds (degree : Z) : list Z :=
  map Z.of_nat (rev (seq 1 (Z.to_nat degree))).

(** [diffs[diffs==0.] = np.finfo(kns.dtype).eps]. *)
Definition patch (diffs : list Q) : list Q :=
  map (fun d => if Qeq_bool d 0 then eps else d) diffs.

(** [geodesic(pts[:,:-1], pts[:,1:], rcoeff.transpose(0,2,1))] for one
    parameter value: the axis of the points and the axis of the
    coefficients are broadcast against each other. *)
Definition geodesic_rows (P1 P2 : list point) (rcoeff : list Q) : result exn (list point) :=
  if (List.length P1 =? List.length rcoeff)%nat
  then Ok (map2 (fun pq theta => geodesic (fst pq) (snd pq) theta) (combine P1 P2) rcoeff)
  else match rcoeff, P1, P2 with
       | [theta], _, _ => Ok (map2 (fun p q => geodesic p q theta) P1 P2)
       | _, [p], [q] => Ok (map (geodesic p q) rcoeff)
       | _, _, _ => Raise (ValueError "operands could not be broadcast together")
       end.

(** The loop of [__call__] over [n] in [ns], for one parameter value. *)
Fixpoint casteljau (ns : list Z) (tm : Q) (pts : list point) (kns : list Q)
  : result exn (list point) :=
  match ns with
  | [] => Ok pts
  | n :: ns' =>
      let lo := py_slice kns None (Some (- n)%Z) in
      let diffs := map2 Qminus (py_slice kns (Some n) None) lo in
      let diffs := patch diffs in
      rcoeff <- sequence (map2 np_divide (map (fun k => tm - k)%Q lo) diffs) ;;
      pts' <- geodesic_rows (py_slice pts None (Some (-1)%Z))
                            (py_slice pts (Some 1%Z) None) rcoeff ;;
      casteljau ns' tm pts' (py_slice kns (Some 1%Z) (Some (-1)%Z))
  end.

(** [BSpline.__call__(t, lknot)] at a scalar [t]; the value is the single
    row of the returned array. *)
Definition call (self : t) (tm : Q) (lknot : option Z) : result exn point :=
  let K := base self in
  lknot <- match lknot with
           | None => Knots.left_knot K tm
           | Some k => Ok k
           end ;;
  let pts := py_slice (control_points self)
               (Some (lknot - Knots.length K)%Z) (Some (lknot + 2)%Z) in
  let kns := py_slice (Knots.knots K)
               (Some (lknot - Knots.degree K + 1)%Z)
               (Some (lknot + Knots.degree K + 1)%Z) in
  if negb (len pts =? Knots.length K + 2)%Z
  then Raise (ValueError "Wrong knot index.")
  else
    pts <- casteljau (rounds (Knots.degree K)) tm pts kns ;;
    py_getitem pts 0.

End BSpline.

Module Bezier.

Record t : Type := mk { spline : BSpline.t; rknot : Z }.

(** [np.zeros(n)]. *)
Definition np_zeros (n : Z) : result exn (list Q) :=
  if (n <? 0)%Z then Raise (ValueError "negative dimensions are not allowed")
  else Ok (repeat 0%Q (Z.to_nat n)).

(** [a[start:] = v] for a scalar [v]. *)
Definition fill_from (a : list Q) (start : Z) (v : Q) : list Q :=
  let s := Z.to_nat (py_bound (len a) start) in
  firstn s a ++ repeat v (List.length a - s).

(** [Bezier.__init__(control_points)]. *)
Definition init (control_points : list point) : result exn t :=
  let nb_control_points := len control_points in
  let rknot := (nb_control_points - 1)%Z in
  knots <- np_zeros (2 * rknot) ;;
  let knots := fill_from knots rknot 1 in
  b <- BSpline.init knots control_points ;;
  Ok (mk b rknot).

(** [Bezier.__call__(t)]: the left knot is always [rknot - 1]. *)
Definition call (self : t) (tm : Q) : result exn point :=
  BSpline.call (spline self) tm (Some (rknot self - 1)%Z).

End Bezier.

(** ** bspline/symmetric.py *)

(** [l[i] = v]. *)
Definition py_setitem {A} (l : list A) (i : Z) (v : A) : result exn (list A) :=
  let j := (if i <? 0 then i + len l else i)%Z in
  if ((j <? 0) || (len l <=? j))%Z then Raise IndexError
  else Ok (firstn (Z.to_nat j) l ++ v :: skipn (S (Z.to_nat j)) l).

(** [l[start:stop] = vals] on an array: the slice keeps its length. *)
Definition py_set_slice {A} (l : list A) (start stop : Z) (vals : list A)
  : result exn (list A) :=
  let s := Z.to_nat (py_bound (len l) start) in
  let e := Z.to_nat (py_bound (len l) stop) in
  if (List.length vals =? e - s)%nat
  then Ok (firstn s l ++ vals ++ skipn (Nat.max s e) l)
  else Raise (ValueError "could not broadcast input array").

(** [range(n)]. *)
Definition py_range (n : Z) : list Z := map Z.of_nat (seq 0 (Z.to_nat n)).

Fixpoint list_max (xs : list Q) : option Q :=
  match xs with
  | [] => None
  | x :: xs' =>
      match list_max xs' with
      | None => Some x
      | Some m => Some (if Qle_bool m x then x else m)
      end
  end.

(** The arithmetic numpy performs on one row of the deformation array (a
    tangent vector), and the list of the row's components. *)
Class Rows (T : Type) : Type := {
  rzero : T;
  ropp : T -> T;
  radd : T -> T -> T;
  rsub : T -> T -> T;
  rscale : Q -> T -> T;
  rdiv : T -> Q -> T;
  coords : T -> list Q
}.

(** [np.max(np.abs(a))] over every component of every row. *)
Definition np_max_abs {T} `{Rows T} (a : list T) : result exn Q :=
  match list_max (map Qabs (List.concat (map coords a))) with
  | Some m => Ok m
  | None => Raise (ValueError "zero-size array to reduction operation maximum which has no identity")
  end.

(** The geometry handed to the interpolator (module [geometry] is not part
    of the sources at hand): points [P], boundary velocities [V], elements
    [G] acting on points, tangent rows [T]. *)
Record Geometry (P V G T : Type) : Type := {
  connection : P -> V -> T;
  action : G -> P -> P;
  redlog : P -> P -> T;
  zero_deformations : list P -> list T
}.

Module Interpolator.

Section Solver.

Context {P V G T : Type} `{Rows T}.

(** [exponential(xi) = Exp(xi)[0]], from the external package [padexp]. *)
Variable exponential : T -> G.

(** What an unconverged solve raises: the two values its message is
    formatted from. *)
Inductive failure : Type :=
| Py (e : exn)
| NoConvergence (i : Z) (error : list T).

Definition lift {A} (c : result exn A) : result failure A :=
  match c with
  | Ok a => Ok a
  | Raise e => Raise (Py e)
  end.

Record t : Type := mk {
  interpolation_points : list P;
  boundary_deformations : list T;
  geometry : Geometry P V G T;
  size : Z
}.

Definition max_iter : Z := 500.
Definition tolerance : Q := 1 # (10 ^ 12).

(** [Interpolator.__init__]. *)
Definition init (interpolation_points : list P) (boundary_velocities : list V)
    (geometry : Geometry P V G T) : result exn t :=
  bd <- sequence
          (map (fun ij : Z * Z =>
                  p <- py_getitem interpolation_points (snd ij) ;;
                  v <- py_getitem boundary_velocities (fst ij) ;;
                  Ok (rscale (1 / 3) (connection geometry p v)))
               [(0, 0); (1, -1)]%Z) ;;
  Ok (mk interpolation_points bd geometry (len interpolation_points)).

(** The generator [control_points(deformations)]: one pair per entry of
    [zip(left_range, right_range)], computed when it is asked for. *)
Definition control_points (self : t) (deformations : list T)
  : list (result exn (P * P)) :=
  let N := size self in
  let all_range := py_range N in
  let left_range := py_slice all_range (Some 2%Z) None in
  let right_range := py_slice all_range None (Some (-2)%Z) in
  let g := geometry self in
  map (fun lr : Z * Z =>
         let (l, r) := lr in
         dl <- py_getitem deformations l ;;
         pl <- py_getitem (interpolation_points self) l ;;
         let left := action g (exponential (ropp dl)) pl in
         dr <- py_getitem deformations r ;;
         pr <- py_getitem (interpolation_points self) r ;;
         let right := action g (exponential dr) pr in
         Ok (left, right))
      (combine left_range right_range).

(** [a[i] = v] for [i] produced by [enumerate] over a [zip] that contains
    [a]'s own rows. *)
Definition set_row (a : list T) (i : nat) (v : T) : list T :=
  firstn i a ++ match skipn i a with [] => [] | _ :: rest => v :: rest end.

(** The [for] loop of [interior_deformations], from index [i] on. *)
Fixpoint sigma_loop (g : Geometry P V G T) (i : nat)
    (items : list (P * (T * result exn (P * P))))
    (sig_left sig_right : list T) : result exn (list T * list T) :=
  match items with
  | [] => Ok (sig_left, sig_right)
  | (Pi, (d, c)) :: items' =>
      lr <- c ;;
      let (left, right) := lr : P * P in
      let pt_left := action g (exponential (ropp d)) left in
      let sig_right := set_row sig_right i (redlog g Pi pt_left) in
      let pt_right := action g (exponential d) right in
      let sig_left := set_row sig_left i (redlog g Pi pt_right) in
      sigma_loop g (S i) items' sig_left sig_right
  end.

(** [interior_deformations(deformations)]. *)
Definition interior_deformations (self : t) (deformations : list T)
  : result exn (list T) :=
  let g := geometry self in
  let interior_deformations := py_slice deformations (Some 1%Z) (Some (-1)%Z) in
  let sig_left := map (fun _ => rzero) interior_deformations in
  let sig_right := map (fun _ => rzero) interior_deformations in
  sigs <- sigma_loop g 0
            (combine (py_slice (interpolation_points self) (Some 1%Z) (Some (-1)%Z))
                     (combine interior_deformations
                              (control_points self deformations)))
            sig_left sig_right ;;
  let (sig_left, sig_right) := sigs : list T * list T in
  Ok (map2 (fun s d => rdiv (radd s (rscale 2 d)) 4)
           (map2 rsub sig_right sig_left) interior_deformations).

(** The inner loop [for i,j in ((0,0), (1,-1))]; it rebinds [i]. *)
Fixpoint set_boundary (self : t) (ijs : list (Z * Z)) (deformations : list T) (i : Z)
  : result exn (list T * Z) :=
  match ijs with
  | [] => Ok (deformations, i)
  | (i', j) :: ijs' =>
      b <- py_getitem (boundary_deformations self) i' ;;
      deformations <- py_setitem deformations j b ;;
      set_boundary self ijs' deformations i'
  end.

(** One pass through the body of the outer loop, up to the test: the new
    array, the value of [i] and [error]. *)
Definition sweep (self : t) (k : Z) (deformations : list T)
  : result exn (list T * Z * list T) :=
  let i := k in
  interior <- interior_deformations self deformations ;;
  let error := map2 rsub (py_slice deformations (Some 1%Z) (Some (-1)%Z)) interior in
  deformations <- py_set_slice deformations 1 (-1) interior ;;
  di <- set_boundary self [(0, 0); (1, -1)]%Z deformations i ;;
  Ok (fst di, snd di, error).

(** The outer [for ... else] over the remaining values [ks] of
    [range(max_iter)]; [last] holds [i] and [error] once they are bound. *)
Fixpoint solve (self : t) (ks : list Z) (deformations : list T)
    (last : option (Z * list T)) : result failure (list T) :=
  match ks with
  | [] =>
      match last with
      | Some (i, error) => Raise (NoConvergence i error)
      | None => Raise (Py NameError)
      end
  | k :: ks' =>
      s <- lift (sweep self k deformations) ;;
      let '(deformations, i, error) := s in
      m <- lift (np_max_abs error) ;;
      if negb (Qle_bool tolerance m) then Ok deformations
      else solve self ks' deformations (Some (i, error))
  end.

(** [compute_deformations()]. *)
Definition compute_deformations (self : t) : result failure (list T) :=
  let deformations := zero_deformations (geometry self) (interpolation_points self) in
  solve self (py_range max_iter) deformations None.

End Solver.

End Interpolator.

(** ** The flat line as a geometry *)

(** Rows with one rational component, kept in lowest terms. *)
#[export] Instance Rows_Q : Rows Q := {
  rzero := 0;
  ropp := fun x => Qred (- x);
  radd := fun x y => Qred (x + y);
  rsub := fun x y => Qred (x - y);
  rscale := fun c x => Qred (c * x);
  rdiv := fun x c => Qred (x / c);
  coords := fun x => [x]
}.

(** Modelled from the spec: the Euclidean variant of the absent module
    [geometry] on the real line, [action(v,P) = P+v], [redlog(P,Q) = Q-P],
    a zero-initialised deformation per interpolation point, and the boundary
    velocity taken as it is by [connection]. *)
Definition line : Geometry Q Q Q Q := {|
  connection := fun _ v => v;
  action := fun g p => Qred (p + g);
  redlog := fun p q => Qred (q - p);
  zero_deformations := fun pts => map (fun _ => 0) pts
|}.

(** ** Worked inputs *)

Definition parabola_points : list point := [[1; 1]; [0; -1]; [-1; 1]]%Q.

Definition big_knots : Knots.t := Knots.init [1; 2; 3; 4; 5; 6; 7]%Q 3.

Definition greville_knots : Knots.t := Knots.init [0; 0; 0; 2; 3; 4; 5; 5; 5]%Q 3.


(** A knot sequence with ties allowed: each entry is at most the next. *)
Fixpoint nondecreasing (l : list Q) : bool :=
  match l with
  | [] => true
  | x :: l' =>
      match l' with
      | [] => true
      | y :: _ => Qle_bool x y && nondecreasing l'
      end
  end.

(** [isrightof] of [left_knot] at the parameter [t], for a window [w]. *)
Definition rightof (t : Q) (w : list Q) : list bool :=
  map (fun d => Qgt_bool d Knots.ktol) (map (fun k => k - t)%Q w).

(** The sum of a list of rationals. *)
Definition qsum (l : list Q) : Q := fold_right Qplus 0 l.

(** Six control points on the knots [0,0,0,1,1,2,2,2]: a cubic spline
    with a double knot at 1, whose interval 3 has zero width. *)
Definition double_knot_spline : BSpline.t :=
  BSpline.mk (Knots.init [0; 0; 0; 1; 1; 2; 2; 2]%Q 3)
             [[0; 0]; [1; 2]; [2; 3]; [3; 3]; [4; 2]; [5; 0]]%Q.

Definition four_points : list point := [[0]; [1]; [2]; [3]]%Q.

Definition segment_knots : Knots.t := Knots.init [0; 1; 2; 3]%Q 1.

(** The object [Bezier(parabola_points)] builds. *)
Definition parabola : Bezier.t :=
  Bezier.mk (BSpline.mk (Knots.mk [0; 0; 1; 1]%Q 1) parabola_points) 2.

(** On the line the element a tangent [xi] generates is the translation by
    [xi] itself ([exponential] comes from the external package [padexp]). *)
Definition line_exponential (xi : Q) : Q := xi.

(** ** The relaxation rule as the specification words it *)

Section Rule.

Context {P V G T : Type} `{Rows T}.
Variable exponential : T -> G.
Variable g : Geometry P V G T.

(** The redlog image at [Pi] of the control point derived from the right
    neighbour [Pr] (deformation [dr]), transported by the action of [-d]. *)
Definition sig_right (Pi Pr : P) (d dr : T) : T :=
  redlog g Pi (action g (exponential (ropp d))
                        (action g (exponential (ropp dr)) Pr)).

(** The redlog image at [Pi] of the control point derived from the left
    neighbour [Pl] (deformation [dl]), transported by the action of [+d]. *)
Definition sig_left (Pi Pl : P) (d dl : T) : T :=
  redlog g Pi (action g (exponential d) (action g (exponential dl) Pl)).

(** [(sig_right - sig_left + 2 d) / 4]. *)
Definition relaxed (Pl Pi Pr : P) (dl d dr : T) : T :=
  rdiv (radd (rsub (sig_right Pi Pr d dr) (sig_left Pi Pl d dl)) (rscale 2 d)) 4.

End Rule.

(** ** Worked solver inputs *)

(** Four points on the line with boundary velocities 3 and -3. *)
Definition zigzag : result exn (@Interpolator.t Q Q Q Q) :=
  Interpolator.init [0; 1; 0; 1]%Q [3; -3]%Q line.

Definition zigzag_solver : @Interpolator.t Q Q Q Q :=
  Interpolator.mk [0; 1; 0; 1]%Q [1; -1]%Q line 4.

(** Eight points on the line, multiples of 2^1000 (about 1.07e301, a
    double), with boundary velocities 3 * 2^1000 and -3 * 2^1000. *)
Definition huge : Z := (2 ^ 1000)%Z.

Definition far_points : list Q :=
  map (fun k => inject_Z (k * huge)) [0; 1; 3; 6; 10; 15; 21; 28]%Z.

Definition far_velocities : list Q :=
  [inject_Z (3 * huge); inject_Z (- 3 * huge)].

Definition far_solver : @Interpolator.t Q Q Q Q :=
  Interpolator.mk far_points [inject_Z huge; inject_Z (- huge)] line 8.

(** ** Further functions of spline.py *)

(** [np.arange(n)], as floats. *)
Definition np_arange (n : Z) : list Q :=
  map (fun i => inject_Z (Z.of_nat i)) (seq 0 (Z.to_nat n)).

(** [np.linspace(start, stop, num)]: [num - 1] equal steps from [start],
    the last sample being set to [stop]. *)
Definition np_linspace (start stop : Q) (num : nat) : list Q :=
  match num with
  | O => []
  | S O => [start]
  | S m =>
      map (fun i => inject_Z (Z.of_nat i) * ((stop - start) / inject_Z (Z.of_nat m))
                    + start)%Q (seq 0 m)
      ++ [stop]
  end.

(** [plot_basis(x, h)]: the number of points it lays out. *)
Definition plot_basis (x : list Q) (h : Q) : result exn Z :=
  let n := len x in
  let degree := (n - 2)%Z in
  let regularity := (degree - 1)%Z in
  let y := if negb (regularity mod 2 =? 0)%Z
           then map (fun s => s / 2)%Q
                    (map2 Qplus (py_slice x None (Some (-1)%Z)) (py_slice x (Some 1%Z) None))
           else x in
  let extra_points := map (fun e => (e + 1) * h)%Q (np_arange (degree / 2)) in
  x0 <- py_getitem x 0 ;;
  xl <- py_getitem x (-1) ;;
  let points := map (fun e => x0 - e)%Q extra_points ++ y
                ++ map (fun e => xl + e)%Q extra_points in
  Ok (len points).

Module Sampling.

Definition plotres : nat := 200.

(** [self(times, k)] on an array of parameters sharing the interval [k]:
    one row per parameter (the array has [plotres] entries, so there is at
    least one row). *)
Definition call_many (self : BSpline.t) (times : list Q) (k : Z)
  : result exn (list point) :=
  sequence (map (fun tm => BSpline.call self tm (Some k)) times).

(** The generator [generate_points(knot_range, margin)] of a spline: one
    triple per knot number, computed when it is asked for. *)
Definition generate_points (self : BSpline.t) (knot_range : option (list Z))
    (margin : Q) : list (result exn (list Q * Z * list point)) :=
  let K := BSpline.base self in
  let knot_range := match knot_range with
                    | None => Knots.knot_range K
                    | Some r => r
                    end in
  map (fun k =>
         kr <- py_getitem (Knots.knots K) (k + 1) ;;
         kl <- py_getitem (Knots.knots K) k ;;
         let width := (kr - kl)%Q in
         let extra := (margin * width)%Q in
         kl' <- py_getitem (Knots.knots K) k ;;
         kr' <- py_getitem (Knots.knots K) (k + 1) ;;
         let left := (kl' - margin)%Q in
         let right := (kr' + margin)%Q in
         let times := np_linspace left right plotres in
         vals <- call_many self times k ;;
         Ok (times, k, vals))
      knot_range.

End Sampling.

(** Two points with the same coordinates, as rationals. *)
Definition peq (p q : point) : Prop := Forall2 Qeq p q.

(** An array of control points of dimension [d]. *)
Definition rectangular (d : nat) (pts : list point) : Prop :=
  Forall (fun p => List.length p = d) pts.

(** ** The classical de Casteljau scheme, for comparison *)

(** One round: every point is replaced by the geodesic point, at ratio
    [theta], between itself and its successor. *)
Fixpoint lerp_pairs (theta : Q) (pts : list point) : list point :=
  match pts with
  | [] => []
  | p :: rest =>
      match rest with
      | [] => []
      | q :: _ => geodesic p q theta :: lerp_pairs theta rest
      end
  end.

(** [n] rounds. *)
Fixpoint de_casteljau (n : nat) (theta : Q) (pts : list point) : list point :=
  match n with
  | O => pts
  | S n' => de_casteljau n' theta (lerp_pairs theta pts)
  end.

(** ** The same code in binary64 arithmetic *)

(** The functions of [spline.py] once more, on the doubles numpy computes
    with: [float] is the binary64 format, and [+], [-], [*], [/] round to
    nearest, ties to even; [<?], [<=?] and [=?] are the comparisons of
    doubles (false on a nan, and [-0 =? 0]).  Indices, slices and
    exceptions are as above; a division by zero is no exception here, it
    gives an infinity or a nan as in numpy. *)

#[local] Set Warnings "-inexact-float".

Module Float64.

(** The double nearest to an integer: the conversion numpy applies to a
    Python [int] operand. *)
Definition of_Z (z : Z) : float := SF2Prim (binary_normalize prec emax z 0 false).

Definition point : Type := list float.

(** [geodesic(P1, P2, theta)] on one pair of points. *)
Definition geodesic (P1 P2 : point) (theta : float) : point :=
  map2 (fun a b => (1 - theta) * a + theta * b)%float P1 P2.

(** [np.ones(n)]. *)
Definition np_ones (n : Z) : result exn (list float) :=
  if (n <? 0)%Z then Raise (ValueError "negative dimensions are not allowed")
  else Ok (repeat 1%float (Z.to_nat n)).

(** One entry of [np.correlate]: [s = 0], then [s += d[j] * k[j]] for
    j = 0, 1, ... in this order, each product and each sum rounded. *)
Definition dot (d k : list float) : float :=
  fold_left (fun s dk => (s + fst dk * snd dk)%float) (combine d k) 0%float.

(** [correlate(a, v, 'valid')] for [len v <= len a]. *)
Fixpoint correlate_valid (a v : list float) : list float :=
  match a with
  | [] => []
  | _ :: a' =>
      if (List.length v <=? List.length a)%nat
      then dot a v :: correlate_valid a' v
      else []
  end.

(** [np.convolve(a, v, 'valid')]: the longer array is taken first, then
    the two are checked, and the shorter one is reversed and slid along
    the longer one. *)
Definition np_convolve_valid (a v : list float) : result exn (list float) :=
  let (a, v) := if (List.length a <? List.length v)%nat then (v, a) else (a, v) in
  match a, v with
  | [], _ => Raise (ValueError "a cannot be empty")
  | _, [] => Raise (ValueError "v cannot be empty")
  | _, _ => Ok (correlate_valid a (rev v))
  end.

Module Knots.

Record t : Type := mk { knots : list float; length : Z }.

(** [Knots.__init__(knots, degree)]. *)
Definition init (knots : list float) (degree : Z) : t :=
  mk knots (degree - 1).

Definition degree (self : t) : Z := (length self + 1)%Z.

Definition nb_curves (self : t) : Z :=
  (len (knots self) - 2 * length self - 1)%Z.

Definition ktol : float := 1e-13%float.

(** The usable window [knots[length:-length]]. *)
Definition window (self : t) : list float :=
  py_slice (knots self) (Some (length self)) (Some (- length self)%Z).

Definition left_knot (self : t) (tm : float) : result exn Z :=
  let diff := map (fun k => k - tm)%float (window self) in
  let isrightof := map (fun d => ktol <? d)%float diff in
  if np_all isrightof then Raise (ValueError "Time too small")
  else if np_all (map negb isrightof) then Raise (ValueError "Time too big")
  else
    let left := (np_argmax isrightof - 1)%Z in
    Ok (left + length self)%Z.

Definition knot_range (self : t) : list Z :=
  if (length self <? 0)%Z then []
  else map (fun i => length self + Z.of_nat i)%Z
           (seq 0 (Z.to_nat (nb_curves self))).

Definition abscissae (self : t) : result exn (list float) :=
  ones <- np_ones (degree self) ;;
  let kernel := map (fun x => x / of_Z (degree self))%float ones in
  np_convolve_valid kernel (knots self).

End Knots.

Module BSpline.

Record t : Type := mk { base : Knots.t; control_points : list point }.

(** [BSpline.__init__(knots, control_points)]. *)
Definition init (knots : list float) (control_points : list point) : result exn t :=
  let degree := (len knots - len control_points + 1)%Z in
  let base := Knots.init knots degree in
  control_points <- np_array control_points ;;
  Ok (mk base control_points).

(** [reversed(1 + np.arange(degree))]: degree, degree-1, ..., 1. *)
Definition rounds (degree : Z) : list Z :=
  map Z.of_nat (rev (seq 1 (Z.to_nat degree))).

(** [np.finfo(float).eps] for doubles. *)
Definition eps : float := 0x1p-52%float.

(** [diffs[diffs==0.] = np.finfo(kns.dtype).eps]. *)
Definition patch (diffs : list float) : list float :=
  map (fun d => if (d =? 0)%float then eps else d) diffs.

(** [geodesic(pts[:,:-1], pts[:,1:], rcoeff.transpose(0,2,1))] for one
    parameter value. *)
Definition geodesic_rows (P1 P2 : list point) (rcoeff : list float)
  : result exn (list point) :=
  if (List.length P1 =? List.length rcoeff)%nat
  then Ok (map2 (fun pq theta => geodesic (fst pq) (snd pq) theta) (combine P1 P2) rcoeff)
  else match rcoeff, P1, P2 with
       | [theta], _, _ => Ok (map2 (fun p q => geodesic p q theta) P1 P2)
       | _, [p], [q] => Ok (map (geodesic p q) rcoeff)
       | _, _, _ => Raise (ValueError "operands could not be broadcast together")
       end.

(** The loop of [__call__] over [n] in [ns], for one parameter value. *)
Fixpoint casteljau (ns : list Z) (tm : float) (pts : list point) (kns : list float)
  : result exn (list point) :=
  match ns with
  | [] => Ok pts
  | n :: ns' =>
      let lo := py_slice kns None (Some (- n)%Z) in
      let diffs := map2 PrimFloat.sub (py_slice kns (Some n) None) lo in
      let diffs := patch diffs in
      let rcoeff := map2 PrimFloat.div (map (fun k => tm - k)%float lo) diffs in
      pts' <- geodesic_rows (py_slice pts None (Some (-1)%Z))
                            (py_slice pts (Some 1%Z) None) rcoeff ;;
      casteljau ns' tm pts' (py_slice kns (Some 1%Z) (Some (-1)%Z))
  end.

(** [BSpline.__call__(t, lknot)] at a scalar [t]. *)
Definition call (self : t) (tm : float) (lknot : option Z) : result exn point :=
  let K := base self in
  lknot <- match lknot with
           | None => Knots.left_knot K tm
           | Some k => Ok k
           end ;;
  let pts := py_slice (control_points self)
               (Some (lknot - Knots.length K)%Z) (Some (lknot + 2)%Z) in
  let kns := py_slice (Knots.knots K)
               (Some (lknot - Knots.degree K + 1)%Z)
               (Some (lknot + Knots.degree K + 1)%Z) in
  if negb (len pts =? Knots.length K + 2)%Z
  then Raise (ValueError "Wrong knot index.")
  else
    pts <- casteljau (rounds (Knots.degree K)) tm pts kns ;;
    py_getitem pts 0.

End BSpline.

Module Bezier.

Record t : Type := mk { spline : BSpline.t; rknot : Z }.

(** [np.zeros(n)]. *)
Definition np_zeros (n : Z) : result exn (list float) :=
  if (n <? 0)%Z then Raise (ValueError "negative dimensions are not allowed")
  else Ok (repeat 0%float (Z.to_nat n)).

(** [a[start:] = v] for a scalar [v]. *)
Definition fill_from (a : list float) (start : Z) (v : float) : list float :=
  let s := Z.to_nat (py_bound (len a) start) in
  firstn s a ++ repeat v (List.length a - s).

(** [Bezier.__init__(control_points)]. *)
Definition init (control_points : list point) : result exn t :=
  let nb_control_points := len control_points in
  let rknot := (nb_control_points - 1)%Z in
  knots <- np_zeros (2 * rknot) ;;
  let knots := fill_from knots rknot 1%float in
  b <- BSpline.init knots control_points ;;
  Ok (mk b rknot).

(** [Bezier.__call__(t)]: the left knot is always [rknot - 1]. *)
Definition call (self : t) (tm : float) : result exn point :=
  BSpline.call (spline self) tm (Some (rknot self - 1)%Z).

End Bezier.

(** One entry of [isrightof] in [left_knot]: [k - t > ktol]. *)
Definition isrightof (tm k : float) : bool := (Knots.ktol <? k - tm)%float.


Definition parabola_points : list point := [[1; 1]; [0; -1]; [-1; 1]]%float.




Definition big_knots : Knots.t := Knots.init [1; 2; 3; 4; 5; 6; 7]%float 3.

Definition segment_knots : Knots.t := Knots.init [0; 1; 2; 3]%float 1.


Definition greville_knots : Knots.t :=
  Knots.init [0; 0; 0; 2; 3; 4; 5; 5; 5]%float 3.


End Float64.

(** * Proofs *)

Unset Implicit Arguments.

#[local] Arguments Qplus : simpl never.
#[local] Arguments Qminus : simpl never.
#[local] Arguments Qmult : simpl never.
#[local] Arguments Qdiv : simpl never.
#[local] Arguments Qopp : simpl never.

Lemma Ok_inj {E A} (a b : A) : @Ok E A a = Ok b -> a = b.
Proof. intro H. injection H as H. exact H. Qed.

(** ** Rational comparisons *)

Lemma Qgt_bool_true (x y : Q) : Qgt_bool x y = true <-> y < x.
Proof.
  unfold Qgt_bool. rewrite negb_true_iff. split; intro Hxy.
  - apply Qnot_le_lt. intro Hle. apply Qle_bool_iff in Hle. congruence.
  - destruct (Qle_bool x y) eqn:E; [|reflexivity].
    apply Qle_bool_iff in E. exfalso. apply (Qlt_not_le _ _ Hxy E).
Qed.

Lemma Qgt_bool_false (x y : Q) : Qgt_bool x y = false <-> x <= y.
Proof.
  unfold Qgt_bool. rewrite negb_false_iff. apply Qle_bool_iff.
Qed.

Lemma ktol_value : Knots.ktol = 7922816251426434 # 79228162514264337593543950336.
Proof. reflexivity. Qed.

Ltac ktol_lra := rewrite ?ktol_value in *; lra.

(** The rational [Knots.ktol] is the value of the double [1e-13], and the
    rational [eps] the value of the double machine epsilon. *)
Lemma ktol_is_the_double :
  Prim2SF Float64.Knots.ktol = S754_finite false 7922816251426434 (-96) /\
  Knots.ktol == inject_Z 7922816251426434 / inject_Z (2 ^ 96) /\
  Prim2SF Float64.BSpline.eps = S754_finite false 4503599627370496 (-104) /\
  eps == inject_Z 4503599627370496 / inject_Z (2 ^ 104).
Proof. repeat split. Qed.

(** ** The tolerance of [left_knot] *)

Lemma big_knots_window : Knots.window big_knots = [3; 4; 5].
Proof. reflexivity. Qed.

(** C9.  On the knots [1,2,3,4,5,6,7] of degree 3 every parameter within
    [ktol] of the knot 4, from either side, is given the index [left_knot]
    gives to 4 itself, which is 3. *)
Theorem left_knot_tolerance (t : Q) :
  4 - Knots.ktol <= t <= 4 + Knots.ktol ->
  Knots.left_knot big_knots t = Knots.left_knot big_knots 4 /\
  Knots.left_knot big_knots 4 = Ok 3%Z.
Proof.
  intros [Hlo Hhi]. split; [|reflexivity].
  change (Knots.left_knot big_knots 4) with (@Ok exn Z 3%Z).
  unfold Knots.left_knot. rewrite big_knots_window. cbn [map].
  assert (H3 : Qgt_bool (3 - t) Knots.ktol = false).
  { apply Qgt_bool_false. ktol_lra. }
  assert (H4 : Qgt_bool (4 - t) Knots.ktol = false).
  { apply Qgt_bool_false. ktol_lra. }
  assert (H5 : Qgt_bool (5 - t) Knots.ktol = true).
  { apply Qgt_bool_true. ktol_lra. }
  rewrite H3, H4, H5. reflexivity.
Qed.

Lemma left_knot_tolerance_witness :
  4 - Knots.ktol <= 4 - (1 # 10 ^ 14) <= 4 + Knots.ktol /\
  (Knots.left_knot big_knots (4 - (1 # 10 ^ 14)) = Knots.left_knot big_knots 4 /\
   Knots.left_knot big_knots 4 = Ok 3%Z).
Proof.
  assert (H : 4 - Knots.ktol <= 4 - (1 # 10 ^ 14) <= 4 + Knots.ktol)
    by (split; vm_compute; discriminate).
  split; [exact H | exact (left_knot_tolerance (4 - (1 # 10 ^ 14)) H)].
Defined.

(** ** Lists and boolean arrays *)

Lemma len_cons {A} (a : A) (l : list A) : len (a :: l) = (1 + len l)%Z.
Proof. unfold len. cbn [List.length]. lia. Qed.

Lemma len_nonneg {A} (l : list A) : (0 <= len l)%Z.
Proof. unfold len. lia. Qed.

Lemma last_default {A} (z : A) (l : list A) (x y : A) :
  last (z :: l) x = last (z :: l) y.
Proof.
  revert z. induction l as [|a l IH]; intro z; [reflexivity|].
  change (last (a :: l) x = last (a :: l) y). apply IH.
Qed.

Lemma last_shift {A} (y : A) (l : list A) (x : A) :
  last (y :: l) x = last l y.
Proof.
  destruct l as [|z l]; [reflexivity|].
  change (last (z :: l) x = last (z :: l) y). apply last_default.
Qed.

Lemma nondecreasing_cons (x : Q) (l : list Q) :
  nondecreasing (x :: l) = true -> nondecreasing l = true /\ Forall (Qle x) l.
Proof.
  revert x. induction l as [|y l IH]; intros x Hs.
  - split; [reflexivity | constructor].
  - cbn [nondecreasing] in Hs. fold (nondecreasing (y :: l)) in Hs.
    apply andb_true_iff in Hs. destruct Hs as [Hxy Hl].
    apply Qle_bool_iff in Hxy. split; [exact Hl|].
    destruct (IH y Hl) as [_ Hall]. constructor; [exact Hxy|].
    eapply Forall_impl; [|exact Hall].
    intros z Hz. eapply Qle_trans; eassumption.
Qed.

Lemma np_argmax_range (bs : list bool) :
  existsb (fun b => b) bs = true -> (0 <= np_argmax bs < len bs)%Z.
Proof.
  induction bs as [|b bs IH]; intro Hex; [discriminate|].
  rewrite len_cons. destruct b; cbn [np_argmax].
  - pose proof (len_nonneg bs). lia.
  - cbn [existsb orb] in Hex. rewrite Hex. specialize (IH Hex). lia.
Qed.

Lemma np_all_negb_false (bs : list bool) :
  np_all (map negb bs) = false -> existsb (fun b => b) bs = true.
Proof.
  unfold np_all. induction bs as [|b bs IH]; cbn [map forallb existsb]; intro Hn.
  - discriminate.
  - destruct b; [reflexivity|]. cbn [negb andb orb] in *. auto.
Qed.

Section Window.

Variable t : Q.

Lemma left_knot_unfold (K : Knots.t) :
  Knots.left_knot K t =
  if np_all (rightof t (Knots.window K)) then Raise (ValueError "Time too small")
  else if np_all (map negb (rightof t (Knots.window K)))
       then Raise (ValueError "Time too big")
       else Ok (np_argmax (rightof t (Knots.window K)) - 1 + Knots.length K)%Z.
Proof. reflexivity. Qed.

Lemma rightof_all (w : list Q) :
  Forall (fun k => t + Knots.ktol < k) w -> np_all (rightof t w) = true.
Proof.
  induction 1 as [|k w Hk _ IH]; [reflexivity|].
  unfold np_all, rightof in *. cbn [map forallb]. rewrite IH, andb_true_r.
  apply Qgt_bool_true. lra.
Qed.

Lemma rightof_head_true (first : Q) (rest : list Q) :
  nondecreasing (first :: rest) = true ->
  Qgt_bool (first - t) Knots.ktol = true ->
  np_all (rightof t (first :: rest)) = true.
Proof.
  intros Hs Hf. apply Qgt_bool_true in Hf.
  destruct (nondecreasing_cons _ _ Hs) as [_ Hall].
  apply rightof_all. constructor; [lra|].
  eapply Forall_impl; [|exact Hall]. cbn beta. intros k Hk. lra.
Qed.

(** On a non-decreasing window the index that is returned lies between
    [length] and [length + len(window) - 2]. *)
Lemma left_knot_Ok_range (K : Knots.t) (k : Z) :
  nondecreasing (Knots.window K) = true ->
  Knots.left_knot K t = Ok k ->
  (Knots.length K <= k <= Knots.length K + len (Knots.window K) - 2)%Z.
Proof.
  intros Hs. rewrite left_knot_unfold.
  destruct (np_all (rightof t (Knots.window K))) eqn:Hall; [discriminate|].
  destruct (np_all (map negb (rightof t (Knots.window K)))) eqn:Hnone; [discriminate|].
  intro Hk. injection Hk as <-.
  destruct (Knots.window K) as [|first rest] eqn:Hw; [discriminate|].
  destruct (Qgt_bool (first - t) Knots.ktol) eqn:Hf.
  { rewrite (rightof_head_true _ _ Hs Hf) in Hall. discriminate. }
  pose proof (np_all_negb_false _ Hnone) as Hex.
  unfold rightof in Hex |- *. cbn [map existsb np_argmax] in Hex |- *.
  rewrite Hf in Hex |- *. cbn [orb] in Hex. rewrite Hex.
  pose proof (np_argmax_range _ Hex) as Hr.
  unfold len in Hr. rewrite !length_map in Hr.
  rewrite len_cons. unfold len. lia.
Qed.

End Window.

(** ** Construction *)

Lemma np_array_rectangular (d : nat) (rows : list point) :
  rectangular d rows -> np_array rows = Ok rows.
Proof.
  unfold rectangular, np_array. intro Hr.
  destruct rows as [|r rest]; [reflexivity|].
  inversion Hr as [|? ? Hd Hrest]; subst.
  replace (forallb (fun p => (List.length p =? List.length r)%nat) rest) with true;
    [reflexivity|].
  symmetry. apply forallb_forall. intros p Hp. apply Nat.eqb_eq.
  rewrite Forall_forall in Hrest. apply Hrest. exact Hp.
Qed.

Lemma np_array_inv (rows rows' : list point) :
  np_array rows = Ok rows' ->
  rows' = rows /\ rectangular (List.length (hd [] rows)) rows.
Proof.
  unfold rectangular, np_array.
  destruct rows as [|r rest]; intro Hok.
  - apply Ok_inj in Hok. subst. split; [reflexivity | constructor].
  - destruct (forallb (fun p => (List.length p =? List.length r)%nat) rest) eqn:E;
      [|discriminate].
    apply Ok_inj in Hok. subst. split; [reflexivity|].
    cbn [hd]. constructor; [reflexivity|].
    apply Forall_forall. intros p Hp. apply Nat.eqb_eq.
    rewrite forallb_forall in E. apply E. exact Hp.
Qed.

(** Construction raises exactly when the rows of control points have
    unequal lengths, and then with numpy's ValueError of the conversion. *)
Lemma init_ragged_rows (knots : list Q) (control_points : list point) :
  (forall d, ~ rectangular d control_points) ->
  exists msg, BSpline.init knots control_points = Raise (ValueError msg).
Proof.
  intro Hnr. unfold BSpline.init.
  destruct (np_array control_points) as [rows|e] eqn:E.
  - exfalso. apply np_array_inv in E. destruct E as [_ Hr]. exact (Hnr _ Hr).
  - unfold np_array in E. destruct control_points as [|r rest]; [discriminate|].
    destruct (forallb (fun p => (List.length p =? List.length r)%nat) rest);
      [discriminate|].
    injection E as <-. eexists. reflexivity.
Qed.

(** C3, as the code has it.  [BSpline.__init__] has no check of the
    count: for every pair of lengths, and every array of control points
    numpy accepts (rows of one length), it returns an object whose degree
    is derived from the two lengths, so that the number of control points
    is [len(knots) - degree + 1] for the object it builds (also when the
    derived degree is negative). *)
Theorem init_derives_degree (knots : list Q) (control_points : list point) (d : nat) :
  rectangular d control_points ->
  exists b,
    BSpline.init knots control_points = Ok b /\
    BSpline.control_points b = control_points /\
    Knots.degree (BSpline.base b) = (len knots - len control_points + 1)%Z /\
    len (BSpline.control_points b) =
      (len (Knots.knots (BSpline.base b)) - Knots.degree (BSpline.base b) + 1)%Z.
Proof.
  intro Hr. unfold BSpline.init. rewrite (np_array_rectangular d _ Hr). cbn [bind].
  eexists. split; [reflexivity|].
  unfold Knots.degree, Knots.init.
  cbn [BSpline.base BSpline.control_points Knots.length Knots.knots].
  split; [reflexivity|]. split; lia.
Qed.

Lemma init_derives_degree_witness :
  rectangular 1 four_points /\
  exists b,
    BSpline.init [0; 1]%Q four_points = Ok b /\
    BSpline.control_points b = four_points /\
    Knots.degree (BSpline.base b) = (len [0; 1]%Q - len four_points + 1)%Z /\
    len (BSpline.control_points b) =
      (len (Knots.knots (BSpline.base b)) - Knots.degree (BSpline.base b) + 1)%Z.
Proof.
  assert (Hr : rectangular 1 four_points) by (repeat constructor).
  split; [exact Hr | exact (init_derives_degree [0; 1]%Q four_points 1 Hr)].
Defined.

(** C3, as stated, fails: two knots and four control points match no degree
    [d >= 0], and the construction returns an object (of degree -1). *)
Lemma init_accepts_mismatch :
  (forall d : Z, (0 <= d)%Z -> len four_points <> (len [0; 1]%Q - d + 1)%Z) /\
  returns (BSpline.init [0; 1]%Q four_points) /\
  (exists b, BSpline.init [0; 1]%Q four_points = Ok b /\
             Knots.degree (BSpline.base b) = (-1)%Z).
Proof.
  split; [|split].
  - intros d Hd. unfold len. cbn [four_points List.length]. lia.
  - exact I.
  - eexists. split; reflexivity.
Qed.

(** ** Greville abscissae *)

Lemma qsum_cons (x : Q) (l : list Q) : qsum (x :: l) = x + qsum l.
Proof. reflexivity. Qed.

Lemma qsum_app (l1 l2 : list Q) : qsum (l1 ++ l2) == qsum l1 + qsum l2.
Proof.
  induction l1 as [|x l1 IH].
  - change (qsum l2 == 0 + qsum l2). ring.
  - change (qsum (x :: (l1 ++ l2)) == qsum (x :: l1) + qsum l2).
    rewrite !qsum_cons, IH. ring.
Qed.

Lemma qsum_rev (l : list Q) : qsum (rev l) == qsum l.
Proof.
  induction l as [|x l IH]; [reflexivity|].
  cbn [rev]. rewrite qsum_app, IH, !qsum_cons.
  change (qsum []) with 0. ring.
Qed.

Lemma dot_repeat_r (c : Q) (n : nat) (a : list Q) :
  dot a (repeat c n) == c * qsum (firstn n a).
Proof.
  revert a. induction n as [|n IH]; intros [|x a]; cbn [repeat dot firstn];
    rewrite ?qsum_cons; change (qsum []) with 0; try ring.
  rewrite IH. ring.
Qed.

Lemma dot_repeat_l (c : Q) (n : nat) (v : list Q) :
  dot (repeat c n) v == c * qsum (firstn n v).
Proof.
  revert v. induction n as [|n IH]; intros [|y v]; cbn [repeat dot firstn];
    rewrite ?qsum_cons; change (qsum []) with 0; try ring.
  rewrite IH. ring.
Qed.

Lemma correlate_valid_short (a v : list Q) :
  (List.length a < List.length v)%nat -> correlate_valid a v = [].
Proof.
  intro Hlt. destruct a as [|x a]; [reflexivity|].
  cbn [correlate_valid].
  destruct (Nat.leb_spec (List.length v) (List.length (x :: a))); [lia | reflexivity].
Qed.

Lemma correlate_valid_length (a v : list Q) :
  (List.length v <= List.length a)%nat -> (1 <= List.length v)%nat ->
  List.length (correlate_valid a v) = (List.length a - List.length v + 1)%nat.
Proof.
  induction a as [|x a IH]; intros Hle Hpos; [simpl in Hle; lia|].
  cbn [correlate_valid].
  destruct (Nat.leb_spec (List.length v) (List.length (x :: a))); [|lia].
  simpl List.length in *.
  destruct (Nat.le_gt_cases (List.length v) (List.length a)) as [Hin|Hout].
  - rewrite IH by lia. lia.
  - rewrite correlate_valid_short by exact Hout. simpl List.length. lia.
Qed.

Lemma correlate_valid_nth (a v : list Q) (i : nat) :
  (i < List.length (correlate_valid a v))%nat ->
  nth i (correlate_valid a v) 0 = dot (skipn i a) v.
Proof.
  revert i. induction a as [|x a IH]; intros i Hi; [cbn in Hi; lia|].
  cbn [correlate_valid] in Hi |- *.
  destruct (List.length v <=? List.length (x :: a))%nat; [|cbn in Hi; lia].
  destruct i as [|i]; [reflexivity|].
  cbn [nth skipn List.length] in Hi |- *. apply IH. lia.
Qed.

Lemma np_convolve_valid_nonempty (a v : list Q) :
  a <> [] -> v <> [] ->
  np_convolve_valid a v =
  Ok (if (List.length a <? List.length v)%nat
      then correlate_valid v (rev a) else correlate_valid a (rev v)).
Proof.
  intros Ha Hv. destruct a as [|x a]; [congruence|]. destruct v as [|y v]; [congruence|].
  unfold np_convolve_valid.
  destruct (List.length (x :: a) <? List.length (y :: v))%nat; reflexivity.
Qed.

Lemma inject_Z_pos (d : Z) : (1 <= d)%Z -> ~ inject_Z d == 0.
Proof.
  intros Hd Heq. unfold Qeq, inject_Z in Heq. cbn in Heq. lia.
Qed.

(** ** The de Casteljau loop *)

Ltac slice_length :=
  unfold py_slice, py_bound, len in *;
  rewrite ?length_firstn, ?length_skipn;
  repeat match goal with
         | |- context [(?a <? ?b)%Z] => destruct (Z.ltb_spec a b)
         end;
  lia.

Lemma map2_length {A B C} (f : A -> B -> C) (xs : list A) (ys : list B) :
  List.length (map2 f xs ys) = Nat.min (List.length xs) (List.length ys).
Proof.
  revert ys. induction xs as [|x xs IH]; intros [|y ys]; simpl; auto.
Qed.

Lemma eps_nonzero : ~ eps == 0.
Proof. discriminate. Qed.

(** Every denominator the loop divides by is non-zero once it is patched. *)
Lemma patch_nonzero (diffs : list Q) :
  Forall (fun d => ~ d == 0) (BSpline.patch diffs).
Proof.
  unfold BSpline.patch. induction diffs as [|d ds IH]; cbn [map]; constructor; auto.
  destruct (Qeq_bool d 0) eqn:E.
  - exact eps_nonzero.
  - apply Qeq_bool_neq. exact E.
Qed.

Lemma patch_length (diffs : list Q) :
  List.length (BSpline.patch diffs) = List.length diffs.
Proof. unfold BSpline.patch. apply length_map. Qed.

Lemma divide_all_ok (xs ds : list Q) :
  Forall (fun d => ~ d == 0) ds ->
  exists r, sequence (map2 np_divide xs ds) = Ok r /\
            List.length r = Nat.min (List.length xs) (List.length ds).
Proof.
  intro Hnz. revert xs. induction Hnz as [|d ds Hd _ IH]; intros [|x xs];
    try (exists []; split; reflexivity).
  destruct (IH xs) as [r [Hr Hlen]].
  exists ((x / d)%Q :: r). split.
  - cbn [map2 sequence]. unfold np_divide at 1.
    destruct (Qeq_bool d 0) eqn:E; [apply Qeq_bool_iff in E; contradiction|].
    cbn [bind]. rewrite Hr. reflexivity.
  - simpl. rewrite Hlen. reflexivity.
Qed.

Lemma rounds_succ (n : nat) :
  BSpline.rounds (Z.of_nat (S n)) = Z.of_nat (S n) :: BSpline.rounds (Z.of_nat n).
Proof.
  unfold BSpline.rounds. rewrite !Nat2Z.id, seq_S, rev_unit. reflexivity.
Qed.

Lemma geodesic_rows_length (P1 P2 : list point) (r : list Q) :
  List.length P1 = List.length r -> List.length P2 = List.length r ->
  exists pts, BSpline.geodesic_rows P1 P2 r = Ok pts /\
              List.length pts = List.length r.
Proof.
  intros H1 H2. unfold BSpline.geodesic_rows.
  rewrite H1, Nat.eqb_refl. eexists. split; [reflexivity|].
  rewrite map2_length, length_combine. lia.
Qed.

(** With [n+1] points and [2n] knots the [n] rounds end on one point. *)
Lemma casteljau_total (n : nat) (t : Q) (pts : list point) (kns : list Q) :
  List.length pts = S n -> List.length kns = (2 * n)%nat ->
  exists p, BSpline.casteljau (BSpline.rounds (Z.of_nat n)) t pts kns = Ok [p].
Proof.
  revert pts kns. induction n as [|n IH]; intros pts kns Hp Hk.
  - destruct pts as [|p [|q pts]]; try discriminate. exists p. reflexivity.
  - rewrite rounds_succ. cbn [BSpline.casteljau].
    set (m := Z.of_nat (S n)).
    set (lo := py_slice kns None (Some (- m)%Z)).
    set (hi := py_slice kns (Some m) None).
    assert (Hlo : List.length lo = S n) by (subst lo m; slice_length).
    assert (Hhi : List.length hi = S n) by (subst hi m; slice_length).
    destruct (divide_all_ok (map (fun k => t - k) lo)
                (BSpline.patch (map2 Qminus hi lo)) (patch_nonzero _))
      as [r [Hr Hlen]].
    rewrite Hr. cbn [bind].
    rewrite length_map, patch_length, map2_length, Hlo, Hhi, Nat.min_id in Hlen.
    destruct (geodesic_rows_length
                (py_slice pts None (Some (-1)%Z)) (py_slice pts (Some 1%Z) None) r)
      as [pts' [Hg Hlen']].
    { rewrite Hlen. slice_length. }
    { rewrite Hlen. slice_length. }
    rewrite Hg. cbn [bind]. apply IH.
    + lia.
    + slice_length.
Qed.

(** No round of the loop divides by zero, whatever it is given. *)
Lemma casteljau_never_divides_by_zero (ns : list Z) (t : Q) (pts : list point)
    (kns : list Q) :
  BSpline.casteljau ns t pts kns <> Raise ZeroDivision.
Proof.
  revert pts kns. induction ns as [|n ns IH]; intros pts kns; [discriminate|].
  cbn [BSpline.casteljau].
  destruct (divide_all_ok (map (fun k => t - k) (py_slice kns None (Some (- n)%Z)))
              (BSpline.patch (map2 Qminus (py_slice kns (Some n) None)
                                   (py_slice kns None (Some (- n)%Z))))
              (patch_nonzero _)) as [r [Hr _]].
  rewrite Hr. cbn [bind].
  destruct (BSpline.geodesic_rows _ _ r) as [pts'|e] eqn:Hg; cbn [bind].
  - apply IH.
  - unfold BSpline.geodesic_rows in Hg.
    destruct (_ =? _)%nat; [discriminate|].
    destruct r as [|? [|? ?]];
      destruct (py_slice pts None (Some (-1)%Z)) as [|? [|? ?]];
      destruct (py_slice pts (Some 1%Z) None) as [|? [|? ?]];
      try discriminate; injection Hg as <-; discriminate.
Qed.

(** ** Evaluation on a valid interval *)

Lemma call_at_index (b : BSpline.t) (t : Q) (k : Z) :
  let K := BSpline.base b in
  (0 <= Knots.degree K)%Z ->
  len (BSpline.control_points b) = (len (Knots.knots K) - Knots.degree K + 1)%Z ->
  (Knots.length K <= k <= len (Knots.knots K) - Knots.length K - 2)%Z ->
  exists p, BSpline.call b t (Some k) = Ok p.
Proof.
  intros K Hd Hc Hk. unfold BSpline.call. fold K. cbn [bind].
  unfold Knots.degree in *.
  set (L := Knots.length K) in *.
  set (pts := py_slice (BSpline.control_points b) (Some (k - L)%Z) (Some (k + 2)%Z)).
  set (kns := py_slice (Knots.knots K) (Some (k - (L + 1) + 1)%Z)
                       (Some (k + (L + 1) + 1)%Z)).
  assert (Hp : List.length pts = S (Z.to_nat (L + 1))).
  { subst pts. slice_length. }
  assert (Hn : List.length kns = (2 * Z.to_nat (L + 1))%nat).
  { subst kns. slice_length. }
  assert (Hlen : (len pts =? L + 2)%Z = true).
  { apply Z.eqb_eq. unfold len. rewrite Hp. lia. }
  rewrite Hlen. cbn [negb].
  destruct (casteljau_total (Z.to_nat (L + 1)) t pts kns Hp Hn) as [p Hcast].
  rewrite Z2Nat.id in Hcast by lia.
  rewrite Hcast. cbn [bind]. exists p. reflexivity.
Qed.

Lemma call_never_divides_by_zero (b : BSpline.t) (t : Q) (lknot : option Z) :
  BSpline.call b t lknot <> Raise ZeroDivision.
Proof.
  unfold BSpline.call.
  assert (Hl : forall k, (match lknot with
                          | None => Knots.left_knot (BSpline.base b) t
                          | Some k => Ok k
                          end) = Raise k -> k <> ZeroDivision).
  { intros e He. destruct lknot; [discriminate|].
    rewrite left_knot_unfold in He.
    repeat destruct (np_all _); try discriminate; injection He as <-; discriminate. }
  destruct (match lknot with None => _ | Some k => _ end) as [k|e];
    cbn [bind]; [|intro E; injection E as E; exact (Hl e eq_refl E)].
  destruct (negb _); [discriminate|].
  destruct (BSpline.casteljau _ t _ _) as [pts|e] eqn:Hcast; cbn [bind].
  - unfold py_getitem. cbn. destruct pts; discriminate.
  - intro E. injection E as ->.
    exact (casteljau_never_divides_by_zero _ _ _ _ Hcast).
Qed.

Lemma window_length (K : Knots.t) :
  (1 <= Knots.length K)%Z ->
  len (Knots.window K) = Z.max 0 (len (Knots.knots K) - 2 * Knots.length K).
Proof.
  intro HL. unfold Knots.window, len.
  unfold py_slice, py_bound, len.
  rewrite length_firstn, length_skipn.
  repeat match goal with
         | |- context [(?a <? ?b)%Z] => destruct (Z.ltb_spec a b)
         end; lia.
Qed.

(** C5.  In [BSpline.__call__] every zero knot difference is replaced by
    the machine epsilon before the ratio is formed: no denominator is zero,
    no evaluation divides by zero, evaluation on any interval of the knot
    range, of zero width or not, returns a point, and so does evaluation
    at every parameter [left_knot] accepts. *)
Theorem zero_width_guard (b : BSpline.t) (t : Q) :
  (2 <= Knots.degree (BSpline.base b))%Z ->
  len (BSpline.control_points b) =
    (len (Knots.knots (BSpline.base b)) - Knots.degree (BSpline.base b) + 1)%Z ->
  nondecreasing (Knots.window (BSpline.base b)) = true ->
  (forall diffs, Forall (fun d => ~ d == 0) (BSpline.patch diffs)) /\
  (forall lknot, BSpline.call b t lknot <> Raise ZeroDivision) /\
  (forall k, (Knots.length (BSpline.base b) <= k
              <= len (Knots.knots (BSpline.base b)) - Knots.length (BSpline.base b) - 2)%Z ->
             exists p, BSpline.call b t (Some k) = Ok p) /\
  (forall k, Knots.left_knot (BSpline.base b) t = Ok k ->
             exists p, BSpline.call b t None = Ok p).
Proof.
  intros Hd Hc Hs. split; [exact patch_nonzero|].
  split; [exact (call_never_divides_by_zero b t)|].
  assert (Hidx : forall k,
             (Knots.length (BSpline.base b) <= k
              <= len (Knots.knots (BSpline.base b)) - Knots.length (BSpline.base b) - 2)%Z ->
             exists p, BSpline.call b t (Some k) = Ok p).
  { intros k Hk. apply call_at_index; [lia | exact Hc | exact Hk]. }
  split; [exact Hidx|].
  intros k Hk.
  pose proof (left_knot_Ok_range t _ k Hs Hk) as Hr.
  unfold Knots.degree in Hd.
  rewrite window_length in Hr by lia.
  destruct (Hidx k) as [p Hp]; [lia|].
  exists p. unfold BSpline.call in Hp |- *. rewrite Hk. exact Hp.
Qed.

Lemma zero_width_guard_witness :
  (2 <= Knots.degree (BSpline.base double_knot_spline))%Z /\
  len (BSpline.control_points double_knot_spline) =
    (len (Knots.knots (BSpline.base double_knot_spline))
     - Knots.degree (BSpline.base double_knot_spline) + 1)%Z /\
  nondecreasing (Knots.window (BSpline.base double_knot_spline)) = true /\
  (forall diffs, Forall (fun d => ~ d == 0) (BSpline.patch diffs)) /\
  (forall lknot, BSpline.call double_knot_spline 1 lknot <> Raise ZeroDivision) /\
  (forall k, (Knots.length (BSpline.base double_knot_spline) <= k
              <= len (Knots.knots (BSpline.base double_knot_spline))
                 - Knots.length (BSpline.base double_knot_spline) - 2)%Z ->
             exists p, BSpline.call double_knot_spline 1 (Some k) = Ok p) /\
  (forall k, Knots.left_knot (BSpline.base double_knot_spline) 1 = Ok k ->
             exists p, BSpline.call double_knot_spline 1 None = Ok p).
Proof.
  assert (Hd : (2 <= Knots.degree (BSpline.base double_knot_spline))%Z)
    by discriminate.
  assert (Hc : len (BSpline.control_points double_knot_spline) =
               (len (Knots.knots (BSpline.base double_knot_spline))
                - Knots.degree (BSpline.base double_knot_spline) + 1)%Z)
    by reflexivity.
  assert (Hs : nondecreasing (Knots.window (BSpline.base double_knot_spline)) = true)
    by reflexivity.
  split; [exact Hd | split; [exact Hc | split; [exact Hs |]]].
  exact (zero_width_guard double_knot_spline 1 Hd Hc Hs).
Defined.

(** On the zero-width interval 3 of [double_knot_spline] (knots 1 and 1)
    the last round divides by the machine epsilon and a point comes out. *)
Example zero_width_interval :
  py_getitem (Knots.knots (BSpline.base double_knot_spline)) 3 = Ok 1 /\
  py_getitem (Knots.knots (BSpline.base double_knot_spline)) 4 = Ok 1 /\
  exists x y, BSpline.call double_knot_spline 1 (Some 3%Z) = Ok [x; y] /\
              x == 5 # 2 /\ y == 3.
Proof.
  split; [reflexivity | split; [reflexivity|]].
  eexists. eexists. split; [vm_compute; reflexivity|].
  split; reflexivity.
Qed.

(** ** The Bezier specialisation *)

Lemma fill_from_length (a : list Q) (start : Z) (v : Q) :
  List.length (Bezier.fill_from a start v) = List.length a.
Proof.
  unfold Bezier.fill_from. rewrite length_app, length_firstn, repeat_length. lia.
Qed.

Lemma bezier_init_ok (control_points : list point) (d : nat) :
  control_points <> [] ->
  rectangular d control_points ->
  exists knots,
    Bezier.init control_points =
      Ok (Bezier.mk
            (BSpline.mk (Knots.init knots (len knots - len control_points + 1))
                        control_points)
            (len control_points - 1)) /\
    len knots = (2 * (len control_points - 1))%Z.
Proof.
  intros Hne Hr. unfold Bezier.init, Bezier.np_zeros.
  assert (Hpos : (1 <= len control_points)%Z).
  { destruct control_points; [congruence|]. rewrite len_cons.
    pose proof (len_nonneg control_points). lia. }
  destruct (Z.ltb_spec (2 * (len control_points - 1)) 0); [lia|].
  cbn [bind]. unfold BSpline.init. rewrite (np_array_rectangular d _ Hr).
  cbn [bind]. eexists. split; [reflexivity|].
  unfold len at 1. rewrite fill_from_length, repeat_length. lia.
Qed.

(** C10.  A Bezier object on n+1 control points (an array: rows of one
    length [d]) evaluates every parameter on the fixed left knot n-1,
    handed to [BSpline.__call__] as [lknot], so that [left_knot] is not
    consulted, and a point comes out for every [t]; outside [0,1], where
    [left_knot] would raise, the polynomial is extrapolated (the parabola
    at t = 2 is (-3, 9)). *)
Theorem bezier_call_total (control_points : list point) (d : nat) (t : Q) :
  control_points <> [] ->
  rectangular d control_points ->
  (exists b p,
      Bezier.init control_points = Ok b /\
      Bezier.rknot b = (len control_points - 1)%Z /\
      Bezier.call b t =
        BSpline.call (Bezier.spline b) t (Some (len control_points - 2)%Z) /\
      Bezier.call b t = Ok p) /\
  (Knots.left_knot (BSpline.base (Bezier.spline parabola)) 2 =
     Raise (ValueError "Time too big") /\
   exists x y, Bezier.call parabola 2 = Ok [x; y] /\ x == -3 /\ y == 9).
Proof.
  intros Hne Hr. split.
  2:{ split; [reflexivity|]. eexists. eexists.
      split; [vm_compute; reflexivity|]. split; reflexivity. }
  destruct (bezier_init_ok control_points d Hne Hr) as [knots [Hinit Hlen]].
  assert (Hpos : (1 <= len control_points)%Z).
  { destruct control_points; [congruence|]. rewrite len_cons.
    pose proof (len_nonneg control_points). lia. }
  set (b := Bezier.mk
              (BSpline.mk (Knots.init knots (len knots - len control_points + 1))
                          control_points)
              (len control_points - 1)) in *.
  assert (Hcall : Bezier.call b t =
                  BSpline.call (Bezier.spline b) t (Some (len control_points - 2)%Z)).
  { unfold Bezier.call. cbn [Bezier.rknot b].
    replace (len control_points - 1 - 1)%Z with (len control_points - 2)%Z by lia.
    reflexivity. }
  destruct (call_at_index (Bezier.spline b) t (len control_points - 2)) as [p Hp].
  - unfold Knots.degree. cbn. lia.
  - unfold Knots.degree. cbn. lia.
  - cbn. lia.
  - exists b, p. split; [exact Hinit|]. split; [reflexivity|].
    split; [exact Hcall|]. rewrite Hcall. exact Hp.
Qed.

Lemma bezier_call_total_witness :
  parabola_points <> [] /\
  rectangular 2 parabola_points /\
  exists b p,
    Bezier.init parabola_points = Ok b /\
    Bezier.rknot b = (len parabola_points - 1)%Z /\
    Bezier.call b 2 = BSpline.call (Bezier.spline b) 2 (Some (len parabola_points - 2)%Z) /\
    Bezier.call b 2 = Ok p.
Proof.
  assert (H : parabola_points <> []) by discriminate.
  assert (Hr : rectangular 2 parabola_points) by (repeat constructor).
  split; [exact H | split; [exact Hr |]].
  exact (proj1 (bezier_call_total parabola_points 2 2 H Hr)).
Defined.

(** ** Slices and indices as list operations *)

Lemma py_getitem_nat {A} (l : list A) (j : nat) (d : A) :
  (j < List.length l)%nat -> py_getitem l (Z.of_nat j) = Ok (nth j l d).
Proof.
  intro Hj. unfold py_getitem.
  destruct (Z.ltb_spec (Z.of_nat j) 0); [lia|].
  destruct (Z.ltb_spec (Z.of_nat j) 0); [lia|].
  rewrite Nat2Z.id, (nth_error_nth' l d Hj). reflexivity.
Qed.

Lemma py_getitem_last {A} (l : list A) (d : A) :
  l <> [] -> py_getitem l (-1) = Ok (last l d).
Proof.
  intro Hne. destruct (exists_last Hne) as [l' [a ->]].
  unfold py_getitem, len. rewrite length_app, last_last. cbn [List.length].
  change (-1 <? 0)%Z with true. cbv iota.
  destruct (Z.ltb_spec (-1 + Z.of_nat (List.length l' + 1)) 0); [lia|].
  replace (Z.to_nat (-1 + Z.of_nat (List.length l' + 1))) with (List.length l' + 0)%nat
    by lia.
  rewrite nth_error_app2 by lia.
  replace (List.length l' + 0 - List.length l')%nat with 0%nat by lia. reflexivity.
Qed.

Lemma slice_inner {A} (l : list A) :
  py_slice l (Some 1%Z) (Some (-1)%Z) = firstn (List.length l - 2) (skipn 1 l).
Proof.
  destruct l as [|x l]; [reflexivity|].
  unfold py_slice, py_bound. change (1 <? 0)%Z with false.
  change (-1 <? 0)%Z with true. cbv iota. rewrite len_cons.
  pose proof (len_nonneg l) as Hl.
  replace (Z.to_nat (Z.min 1 (1 + len l))) with 1%nat by lia.
  replace (Z.to_nat (Z.max (-1 + (1 + len l)) 0 - Z.min 1 (1 + len l)))
    with (List.length (x :: l) - 2)%nat by (unfold len in *; cbn [List.length]; lia).
  reflexivity.
Qed.

Lemma slice_from_2 {A} (l : list A) :
  (2 <= List.length l)%nat -> py_slice l (Some 2%Z) None = skipn 2 l.
Proof.
  intro Hl. unfold py_slice, py_bound, len. change (2 <? 0)%Z with false. cbv iota.
  replace (Z.to_nat (Z.min 2 (Z.of_nat (List.length l)))) with 2%nat by lia.
  apply firstn_all2. rewrite length_skipn. lia.
Qed.

Lemma slice_to_minus_2 {A} (l : list A) :
  (2 <= List.length l)%nat ->
  py_slice l None (Some (-2)%Z) = firstn (List.length l - 2) l.
Proof.
  intro Hl. unfold py_slice, py_bound, len. change (-2 <? 0)%Z with true. cbv iota.
  cbn [Z.to_nat skipn]. f_equal. lia.
Qed.

Lemma skipn_nth {A} (s : nat) (l : list A) (d : A) :
  (s < List.length l)%nat -> skipn s l = nth s l d :: skipn (S s) l.
Proof.
  revert l. induction s as [|s IH]; intros [|x l] Hs; simpl in Hs; try lia.
  - reflexivity.
  - cbn [skipn nth]. apply IH. lia.
Qed.

Lemma firstn_skipn_seq {A} (m s : nat) (l : list A) (d : A) :
  (s + m <= List.length l)%nat ->
  firstn m (skipn s l) = map (fun j => nth (j + s) l d) (seq 0 m).
Proof.
  revert s. induction m as [|m IH]; intros s Hs; [reflexivity|].
  rewrite (skipn_nth s l d) by lia. cbn [firstn seq map].
  rewrite IH by lia. rewrite <- seq_shift, map_map.
  f_equal. apply map_ext. intro j. f_equal. lia.
Qed.

Lemma combine_map {A B C} (f : A -> B) (g : A -> C) (l : list A) :
  combine (map f l) (map g l) = map (fun x => (f x, g x)) l.
Proof. induction l as [|x l IH]; cbn [map combine]; congruence. Qed.

Lemma map2_map {A B C D} (h : B -> C -> D) (f : A -> B) (g : A -> C) (l : list A) :
  map2 h (map f l) (map g l) = map (fun x => h (f x) (g x)) l.
Proof. induction l as [|x l IH]; cbn [map map2]; congruence. Qed.

Lemma firstn_seq_min (m a n : nat) : firstn m (seq a n) = seq a (Nat.min m n).
Proof.
  revert a n. induction m as [|m IH]; intros a [|n]; try reflexivity.
  cbn [seq firstn Nat.min]. f_equal. apply IH.
Qed.

Lemma left_right_range (n : nat) :
  (2 <= n)%nat ->
  combine (py_slice (py_range (Z.of_nat n)) (Some 2%Z) None)
          (py_slice (py_range (Z.of_nat n)) None (Some (-2)%Z)) =
  map (fun j => (Z.of_nat (j + 2), Z.of_nat j)) (seq 0 (n - 2)).
Proof.
  intro Hn. unfold py_range. rewrite Nat2Z.id.
  rewrite slice_from_2, slice_to_minus_2 by (rewrite length_map, length_seq; lia).
  rewrite length_map, length_seq, skipn_map, firstn_map, skipn_seq, firstn_seq_min.
  rewrite Nat.min_l by lia. cbn [Nat.add].
  replace (seq 2 (n - 2)) with (map (fun j => (j + 2)%nat) (seq 0 (n - 2))).
  - rewrite map_map. apply combine_map.
  - rewrite <- !seq_shift, !map_map. apply map_ext. intro j. lia.
Qed.

(** ** The solver *)

Lemma py_setitem_head {A} (x v : A) (l : list A) :
  py_setitem (x :: l) 0 v = Ok (v :: l).
Proof.
  unfold py_setitem. rewrite len_cons. pose proof (len_nonneg l).
  change (0 <? 0)%Z with false. cbv iota.
  destruct (Z.leb_spec (1 + len l) 0); [lia|]. reflexivity.
Qed.

Lemma py_setitem_last {A} (y v : A) (l : list A) :
  py_setitem (l ++ [y]) (-1) v = Ok (l ++ [v]).
Proof.
  unfold py_setitem, len. rewrite length_app. cbn [List.length].
  change (-1 <? 0)%Z with true. cbv iota.
  destruct (Z.ltb_spec (-1 + Z.of_nat (List.length l + 1)) 0); [lia|].
  destruct (Z.leb_spec (Z.of_nat (List.length l + 1))
                       (-1 + Z.of_nat (List.length l + 1))); [lia|].
  cbn [orb].
  replace (Z.to_nat (-1 + Z.of_nat (List.length l + 1))) with (List.length l) by lia.
  rewrite firstn_app, firstn_all, Nat.sub_diag. cbn [firstn].
  rewrite skipn_all2 by (rewrite length_app; cbn [List.length]; lia).
  rewrite app_nil_r. reflexivity.
Qed.

Section SolverFacts.

Context {P V G T : Type} `{Rows T}.
Variable exponential : T -> G.

(** What the constructor leaves in the object. *)
Lemma init_inv (points : list P) (velocities : list V) (g : Geometry P V G T)
    (self : Interpolator.t) :
  Interpolator.init points velocities g = Ok self ->
  exists p0 v0 p1 v1,
    py_getitem points 0 = Ok p0 /\ py_getitem velocities 0 = Ok v0 /\
    py_getitem points (-1) = Ok p1 /\ py_getitem velocities 1 = Ok v1 /\
    self = Interpolator.mk points
             [rscale (1 / 3) (connection g p0 v0);
              rscale (1 / 3) (connection g p1 v1)] g (len points).
Proof.
  unfold Interpolator.init. cbn [map sequence fst snd].
  destruct (py_getitem points 0) as [p0|]; cbn [bind]; [|discriminate].
  destruct (py_getitem velocities 0) as [v0|]; cbn [bind]; [|discriminate].
  destruct (py_getitem points (-1)) as [p1|]; cbn [bind]; [|discriminate].
  destruct (py_getitem velocities 1) as [v1|]; cbn [bind]; [|discriminate].
  intro E. injection E as <-. exists p0, v0, p1, v1. repeat split.
Qed.

Variable self : Interpolator.t (P:=P) (V:=V) (G:=G) (T:=T).
Variable p0 : P.

Let g := Interpolator.geometry self.
Let pts := Interpolator.interpolation_points self.

Hypothesis size_ok : Interpolator.size self = len pts.

Lemma set_row_app (done rest : list T) (r v : T) (i : nat) :
  i = List.length done ->
  Interpolator.set_row (done ++ r :: rest) i v = done ++ v :: rest.
Proof.
  intros ->. unfold Interpolator.set_row.
  rewrite firstn_app, firstn_all, Nat.sub_diag, skipn_app, skipn_all, Nat.sub_diag.
  cbn [firstn skipn app]. rewrite app_nil_r. reflexivity.
Qed.

(** The loop over items that all deliver their pair of control points
    fills one row of [sig_left] and of [sig_right] per item. *)
Lemma sigma_loop_pure (a : nat -> P) (b : nat -> T) (c : nat -> P * P) (js : list nat) :
  forall (done_l rest_l done_r rest_r : list T),
    List.length done_l = List.length done_r ->
    (List.length js <= List.length rest_l)%nat ->
    (List.length js <= List.length rest_r)%nat ->
    Interpolator.sigma_loop exponential g (List.length done_l)
      (map (fun j => (a j, (b j, Ok (c j)))) js)
      (done_l ++ rest_l) (done_r ++ rest_r) =
    Ok (done_l
          ++ map (fun j => redlog g (a j) (action g (exponential (b j)) (snd (c j)))) js
          ++ skipn (List.length js) rest_l,
        done_r
          ++ map (fun j => redlog g (a j)
                             (action g (exponential (ropp (b j))) (fst (c j)))) js
          ++ skipn (List.length js) rest_r).
Proof.
  induction js as [|j js IH]; intros done_l rest_l done_r rest_r Hd Hl Hr.
  - reflexivity.
  - destruct rest_l as [|rl rest_l]; [cbn in Hl; lia|].
    destruct rest_r as [|rr rest_r]; [cbn in Hr; lia|].
    cbn [map Interpolator.sigma_loop bind].
    destruct (c j) as [left right] eqn:Ec. cbn [fst snd].
    rewrite (set_row_app done_r rest_r) by exact Hd.
    rewrite (set_row_app done_l rest_l) by reflexivity.
    set (vL := redlog g (a j) (action g (exponential (b j)) right)).
    set (vR := redlog g (a j) (action g (exponential (ropp (b j))) left)).
    specialize (IH (done_l ++ [vL]) rest_l (done_r ++ [vR]) rest_r).
    rewrite !length_app in IH. cbn [List.length] in IH, Hl, Hr.
    replace (List.length done_l + 1)%nat with (S (List.length done_l)) in IH by lia.
    rewrite <- !app_assoc in IH. cbn [app] in IH.
    rewrite IH by lia. reflexivity.
Qed.

(** The generator delivers every pair when the array has one row per
    interpolation point. *)
Lemma control_points_pure (D : list T) :
  List.length D = List.length pts -> (2 <= List.length pts)%nat ->
  Interpolator.control_points exponential self D =
  map (fun j =>
         Ok (action g (exponential (ropp (nth (j + 2) D rzero))) (nth (j + 2) pts p0),
             action g (exponential (nth j D rzero)) (nth j pts p0)))
      (seq 0 (List.length pts - 2)).
Proof.
  intros HD Hn. unfold Interpolator.control_points.
  rewrite size_ok. unfold len. rewrite left_right_range by exact Hn.
  rewrite map_map. apply map_ext_in. intros j Hj.
  apply in_seq in Hj. fold g. fold pts.
  rewrite (py_getitem_nat D (j + 2) rzero) by lia. cbn [bind].
  rewrite (py_getitem_nat pts (j + 2) p0) by lia. cbn [bind].
  rewrite (py_getitem_nat D j rzero) by lia. cbn [bind].
  rewrite (py_getitem_nat pts j p0) by lia. cbn [bind].
  reflexivity.
Qed.

(** [interior_deformations] computes, for every interior point, the rule
    of the specification on the rows of the array it is given. *)
Lemma interior_deformations_closed (D : list T) :
  List.length D = List.length pts -> (2 <= List.length pts)%nat ->
  Interpolator.interior_deformations exponential self D =
  Ok (map (fun j =>
             relaxed exponential g
               (nth j pts p0) (nth (j + 1) pts p0) (nth (j + 2) pts p0)
               (nth j D rzero) (nth (j + 1) D rzero) (nth (j + 2) D rzero))
          (seq 0 (List.length pts - 2))).
Proof.
  intros HD Hn. unfold Interpolator.interior_deformations.
  rewrite control_points_pure by assumption.
  fold g. fold pts. rewrite !slice_inner.
  rewrite (firstn_skipn_seq _ 1 pts p0) by lia.
  rewrite HD. rewrite (firstn_skipn_seq _ 1 D rzero) by lia.
  set (js := seq 0 (List.length pts - 2)).
  rewrite !combine_map.
  pose proof (sigma_loop_pure
                (fun j => nth (j + 1) pts p0) (fun j => nth (j + 1) D rzero)
                (fun j => (action g (exponential (ropp (nth (j + 2) D rzero)))
                                  (nth (j + 2) pts p0),
                           action g (exponential (nth j D rzero)) (nth j pts p0)))
                js [] (map (fun _ => rzero) (map (fun j => nth (j + 1) D rzero) js))
                [] (map (fun _ => rzero) (map (fun j => nth (j + 1) D rzero) js))
                eq_refl) as Hloop.
  cbn [app List.length] in Hloop. rewrite Hloop by (rewrite !length_map; lia).
  cbn [bind fst snd].
  rewrite !skipn_all2 by (rewrite !length_map; lia).
  rewrite !app_nil_r, !map2_map. reflexivity.
Qed.

(** The inner loop leaves 1 in [i]. *)
Lemma sweep_index (k : Z) (D D' : list T) (i : Z) (error : list T) :
  Interpolator.sweep exponential self k D = Ok (D', i, error) -> i = 1%Z.
Proof.
  unfold Interpolator.sweep.
  destruct (Interpolator.interior_deformations exponential self D);
    cbn [bind]; [|discriminate].
  destruct (py_set_slice D 1 (-1) _) as [D1|]; cbn [bind]; [|discriminate].
  cbn [Interpolator.set_boundary].
  destruct (py_getitem (Interpolator.boundary_deformations self) 0);
    cbn [bind]; [|discriminate].
  destruct (py_setitem D1 0 _) as [D2|]; cbn [bind]; [|discriminate].
  destruct (py_getitem (Interpolator.boundary_deformations self) 1);
    cbn [bind]; [|discriminate].
  destruct (py_setitem D2 (-1) _) as [D3|]; cbn [bind]; [|discriminate].
  cbn [fst snd]. intro E. injection E as _ <- _. reflexivity.
Qed.

(** Whenever the solver gives up, the index in its message is 1. *)
Lemma solve_reports_one (ks : list Z) :
  forall (D : list T) (last : option (Z * list T)) (i : Z) (error : list T),
    (forall i' e', last = Some (i', e') -> i' = 1%Z) ->
    Interpolator.solve exponential self ks D last
      = Raise (Interpolator.NoConvergence i error) ->
    i = 1%Z.
Proof.
  induction ks as [|k ks IH]; intros D last i error Hlast Hsolve.
  - cbn [Interpolator.solve] in Hsolve.
    destruct last as [[i' e']|]; [|discriminate].
    injection Hsolve as <- _. apply (Hlast i' e'). reflexivity.
  - cbn [Interpolator.solve] in Hsolve.
    destruct (Interpolator.sweep exponential self k D) as [[[D' i'] e']|] eqn:Hs;
      cbn [Interpolator.lift bind] in Hsolve; [|discriminate].
    destruct (np_max_abs e') as [m|]; cbn [Interpolator.lift bind] in Hsolve;
      [|discriminate].
    destruct (negb (Qle_bool Interpolator.tolerance m)); [discriminate|].
    apply (IH D' (Some (i', e')) i error); [|exact Hsolve].
    intros i'' e'' E. injection E as <- _.
    exact (sweep_index k D D' i' e' Hs).
Qed.

(** An array is returned only from a sweep whose largest absolute change
    is below the tolerance. *)
Lemma solve_returns_converged (ks : list Z) :
  forall (D : list T) (last : option (Z * list T)) (R : list T),
    Interpolator.solve exponential self ks D last = Ok R ->
    exists k Dk i error m,
      In k ks /\
      Interpolator.sweep exponential self k Dk = Ok (R, i, error) /\
      np_max_abs error = Ok m /\ m < Interpolator.tolerance.
Proof.
  induction ks as [|k ks IH]; intros D last R Hsolve.
  - cbn [Interpolator.solve] in Hsolve. destruct last as [[? ?]|]; discriminate.
  - cbn [Interpolator.solve] in Hsolve.
    destruct (Interpolator.sweep exponential self k D) as [[[D' i'] e']|] eqn:Hs;
      cbn [Interpolator.lift bind] in Hsolve; [|discriminate].
    destruct (np_max_abs e') as [m|] eqn:Hm; cbn [Interpolator.lift bind] in Hsolve;
      [|discriminate].
    destruct (Qle_bool Interpolator.tolerance m) eqn:Hle; cbn [negb] in Hsolve.
    + destruct (IH D' _ R Hsolve) as (k' & Dk & i & error & m' & Hin & Hrest).
      exists k', Dk, i, error, m'. split; [right; exact Hin | exact Hrest].
    + injection Hsolve as <-.
      exists k, D, i', e', m. split; [left; reflexivity|].
      split; [exact Hs|]. split; [exact Hm|].
      apply Qnot_le_lt. intro Hc. apply Qle_bool_iff in Hc. congruence.
Qed.

End SolverFacts.

(** ** One relaxation step *)

Section Relaxation.

Context {P V G T : Type} `{Rows T}.
Variable exponential : T -> G.

(** One pass of the loop body on an array with one row per point: the
    interior is replaced by what [interior_deformations] computed from the
    array as it was, and the two ends by the boundary deformations. *)
Lemma sweep_closed (points : list P) (b0 b1 : T) (g : Geometry P V G T)
    (k : Z) (D interior : list T) :
  let self := Interpolator.mk points [b0; b1] g (len points) in
  (2 <= List.length D)%nat ->
  List.length interior = (List.length D - 2)%nat ->
  Interpolator.interior_deformations exponential self D = Ok interior ->
  Interpolator.sweep exponential self k D =
  Ok (b0 :: interior ++ [b1], 1%Z,
      map2 rsub (py_slice D (Some 1%Z) (Some (-1)%Z)) interior).
Proof.
  intros self HD Hint Hi. unfold Interpolator.sweep. rewrite Hi. cbn [bind].
  assert (Hset : py_set_slice D 1 (-1) interior =
                 Ok (firstn 1 D ++ interior ++ skipn (List.length D - 1) D)).
  { unfold py_set_slice, py_bound, len.
    change (1 <? 0)%Z with false. change (-1 <? 0)%Z with true. cbv iota.
    replace (Z.to_nat (Z.min 1 (Z.of_nat (List.length D)))) with 1%nat by lia.
    replace (Z.to_nat (Z.max (-1 + Z.of_nat (List.length D)) 0))
      with (List.length D - 1)%nat by lia.
    replace (List.length interior =? List.length D - 1 - 1)%nat with true
      by (symmetry; apply Nat.eqb_eq; lia).
    rewrite Nat.max_r by lia. reflexivity. }
  rewrite Hset. cbn [bind].
  destruct D as [|x D1]; [cbn in HD; lia|].
  rewrite (skipn_nth (List.length (x :: D1) - 1) (x :: D1) rzero)
    by (cbn [List.length]; lia).
  rewrite (skipn_all2 (n := S (List.length (x :: D1) - 1)))
    by (cbn [List.length]; lia).
  unfold self.
  cbn [firstn app Interpolator.set_boundary Interpolator.boundary_deformations].
  change (py_getitem [b0; b1] 0) with (@Ok exn T b0).
  change (py_getitem [b0; b1] 1) with (@Ok exn T b1).
  cbn [bind]. rewrite py_setitem_head. cbn [bind].
  change (b0 :: interior ++ [?y]) with ((b0 :: interior) ++ [y]).
  rewrite py_setitem_last. cbn [bind fst snd app]. reflexivity.
Qed.

(** C6.  One pass of the solver's loop gives each interior point the row
    [(sig_right - sig_left + 2 d) / 4], where [sig_right] and [sig_left]
    are the redlog images at the point of the control points derived from
    its right and left neighbours, transported by the actions of [-d] and
    [+d]; every row of the new interior is computed from the array as it
    was before the pass. *)
Theorem relaxation_update (points : list P) (velocities : list V)
    (geometry : Geometry P V G T) (self : Interpolator.t) (D : list T) (k : Z)
    (i : nat) (Pl Pi Pr : P) (dl d dr : T) :
  Interpolator.init points velocities geometry = Ok self ->
  List.length D = List.length points ->
  nth_error points i = Some Pl ->
  nth_error points (S i) = Some Pi ->
  nth_error points (S (S i)) = Some Pr ->
  nth_error D i = Some dl ->
  nth_error D (S i) = Some d ->
  nth_error D (S (S i)) = Some dr ->
  exists interior D' error,
    Interpolator.interior_deformations exponential self D = Ok interior /\
    nth_error interior i = Some (relaxed exponential geometry Pl Pi Pr dl d dr) /\
    Interpolator.sweep exponential self k D = Ok (D', 1%Z, error) /\
    py_slice D' (Some 1%Z) (Some (-1)%Z) = interior /\
    nth_error D' (S i) = Some (relaxed exponential geometry Pl Pi Pr dl d dr).
Proof.
  intros Hinit HD HPl HPi HPr Hdl Hd Hdr.
  destruct (init_inv points velocities geometry self Hinit)
    as (q0 & v0 & q1 & v1 & _ & _ & _ & _ & ->).
  set (b0 := rscale (1 / 3) (connection geometry q0 v0)).
  set (b1 := rscale (1 / 3) (connection geometry q1 v1)).
  assert (Hn : (S (S i) < List.length points)%nat).
  { apply nth_error_Some. congruence. }
  pose proof (interior_deformations_closed exponential
                (Interpolator.mk points [b0; b1] geometry (len points)) Pl
                eq_refl D HD ltac:(cbn; lia)) as Hclosed.
  cbn [Interpolator.geometry Interpolator.interpolation_points] in Hclosed.
  set (F := fun j : nat =>
              relaxed exponential geometry (nth j points Pl) (nth (j + 1) points Pl)
                (nth (j + 2) points Pl) (nth j D rzero) (nth (j + 1) D rzero)
                (nth (j + 2) D rzero)) in Hclosed.
  set (interior := map F (seq 0 (List.length points - 2))) in *.
  assert (Hlen : List.length interior = (List.length D - 2)%nat).
  { subst interior. rewrite length_map, length_seq. lia. }
  assert (Hnth : nth_error interior i =
                 Some (relaxed exponential geometry Pl Pi Pr dl d dr)).
  { subst interior.
    assert (Hs : nth_error (seq 0 (List.length points - 2)) i = Some i).
    { rewrite nth_error_seq.
      destruct (Nat.ltb_spec i (List.length points - 2)); [reflexivity | lia]. }
    apply (map_nth_error F) in Hs. rewrite Hs. unfold F.
    replace (i + 1)%nat with (S i) by lia.
    replace (i + 2)%nat with (S (S i)) by lia.
    rewrite (nth_error_nth points i Pl HPl), (nth_error_nth points (S i) Pl HPi),
      (nth_error_nth points (S (S i)) Pl HPr), (nth_error_nth D i rzero Hdl),
      (nth_error_nth D (S i) rzero Hd), (nth_error_nth D (S (S i)) rzero Hdr).
    reflexivity. }
  exists interior, (b0 :: interior ++ [b1]),
    (map2 rsub (py_slice D (Some 1%Z) (Some (-1)%Z)) interior).
  split; [exact Hclosed|]. split; [exact Hnth|]. split.
  { apply sweep_closed; [lia | exact Hlen | exact Hclosed]. }
  split.
  - rewrite slice_inner. cbn [skipn List.length].
    rewrite length_app. cbn [List.length].
    replace (S (List.length interior + 1) - 2)%nat with (List.length interior) by lia.
    rewrite firstn_app, firstn_all, Nat.sub_diag. cbn [firstn]. apply app_nil_r.
  - cbn [nth_error]. rewrite nth_error_app1; [exact Hnth|].
    apply nth_error_Some. congruence.
Qed.

End Relaxation.

Lemma relaxation_update_witness :
  Interpolator.init [0; 1; 0; 1] [3; -3] line = Ok zigzag_solver /\
  List.length [1; 0; 0; -1] = List.length [0; 1; 0; 1] /\
  nth_error [0; 1; 0; 1] 0 = Some 0 /\
  nth_error [0; 1; 0; 1] 1 = Some 1 /\
  nth_error [0; 1; 0; 1] 2 = Some 0 /\
  nth_error [1; 0; 0; -1] 0 = Some 1 /\
  nth_error [1; 0; 0; -1] 1 = Some 0 /\
  nth_error [1; 0; 0; -1] 2 = Some 0 /\
  exists interior D' error,
    Interpolator.interior_deformations line_exponential zigzag_solver [1; 0; 0; -1]
      = Ok interior /\
    nth_error interior 0 = Some (relaxed line_exponential line 0 1 0 1 0 0) /\
    Interpolator.sweep line_exponential zigzag_solver 1 [1; 0; 0; -1]
      = Ok (D', 1%Z, error) /\
    py_slice D' (Some 1%Z) (Some (-1)%Z) = interior /\
    nth_error D' 1 = Some (relaxed line_exponential line 0 1 0 1 0 0).
Proof.
  assert (Hinit : Interpolator.init [0; 1; 0; 1] [3; -3] line = Ok zigzag_solver)
    by (vm_compute; reflexivity).
  repeat (split; [first [exact Hinit | reflexivity]|]).
  exact (relaxation_update line_exponential [0; 1; 0; 1] [3; -3] line zigzag_solver
           [1; 0; 0; -1] 1 0 0 1 0 1 0 0
           Hinit eq_refl eq_refl eq_refl eq_refl eq_refl eq_refl eq_refl).
Defined.

(** ** The solver on the line *)

(** C4.  The boundary rows are written after the first update, not before
    it: on the points [0,1,0,1] with boundary velocities 3 and -3 the
    boundary deformations are 1 and -1, the first pass reads the all-zero
    array, finds no change and ends the solve with interior rows 0, although
    a further pass on the returned array moves them by 1/4. *)
Theorem first_sweep_reads_zero_boundary :
  zigzag = Ok zigzag_solver /\
  Interpolator.boundary_deformations zigzag_solver = [1; -1] /\
  zero_deformations line (Interpolator.interpolation_points zigzag_solver)
    = [0; 0; 0; 0] /\
  Interpolator.sweep line_exponential zigzag_solver 0 [0; 0; 0; 0]
    = Ok ([1; 0; 0; -1], 1%Z, [0; 0]) /\
  Interpolator.compute_deformations line_exponential zigzag_solver
    = Ok [1; 0; 0; -1] /\
  Interpolator.interior_deformations line_exponential zigzag_solver [1; 0; 0; -1]
    = Ok [-1 # 4; 1 # 4].
Proof. repeat split; vm_compute; reflexivity. Qed.

(** C7.  On eight far-apart points of the line the 500 passes end with a
    change above the tolerance and the solver raises; the index its message
    is formatted with is 1, the last value of the inner loop's [i], not the
    index 499 of the last pass. *)
Theorem no_convergence_reports_inner_index :
  Interpolator.init far_points far_velocities line = Ok far_solver /\
  Interpolator.max_iter = 500%Z /\
  exists error m,
    Interpolator.compute_deformations line_exponential far_solver
      = Raise (Interpolator.NoConvergence 1 error) /\
    np_max_abs error = Ok m /\
    Interpolator.tolerance <= m.
Proof.
  split; [vm_compute; reflexivity|]. split; [reflexivity|].
  eexists. eexists. split; [vm_compute; reflexivity|].
  split; [vm_compute; reflexivity|]. vm_compute. discriminate.
Qed.

(** * Further properties of the code *)

(** ** The knot range *)

Lemma knot_range_facts (K : Knots.t) (k : Z) :
  (In k (Knots.knot_range K) <->
   (0 <= Knots.length K /\ Knots.length K <= k < Knots.length K + Knots.nb_curves K)%Z) /\
  len (Knots.knot_range K) =
    (if (Knots.length K <? 0)%Z then 0 else Z.max 0 (Knots.nb_curves K))%Z.
Proof.
  unfold Knots.knot_range.
  destruct (Z.ltb_spec (Knots.length K) 0) as [Hneg|Hpos].
  - split; [|reflexivity]. cbn [In]. lia.
  - split.
    + rewrite in_map_iff. split.
      * intros [i [<- Hi]]. apply in_seq in Hi. lia.
      * intros [_ Hk]. exists (Z.to_nat (k - Knots.length K)). split; [lia|].
        apply in_seq. lia.
    + unfold len. rewrite length_map, length_seq. lia.
Qed.

(** [knot_range()] lists exactly the knot numbers from [length] to
    [length + nb_curves - 1]; it is empty for degree 0 and whenever
    [nb_curves <= 0], and has [nb_curves] entries otherwise. *)
Theorem knot_range_spec (K : Knots.t) (k : Z) :
  (In k (Knots.knot_range K) <->
   (0 <= Knots.length K /\ Knots.length K <= k < Knots.length K + Knots.nb_curves K)%Z) /\
  len (Knots.knot_range K) =
    (if (Knots.length K <? 0)%Z then 0 else Z.max 0 (Knots.nb_curves K))%Z.
Proof. exact (knot_range_facts K k). Qed.

(** For degree 1 the window [knots[0:-0]] is empty: [left_knot] raises
    "Time too small" for every parameter, whatever the knots. *)
Theorem left_knot_degree_one (K : Knots.t) (t : Q) :
  Knots.degree K = 1%Z ->
  Knots.window K = [] /\
  Knots.left_knot K t = Raise (ValueError "Time too small").
Proof.
  unfold Knots.degree. intro Hd.
  assert (Hw : Knots.window K = []).
  { unfold Knots.window, py_slice, py_bound.
    replace (Knots.length K) with 0%Z by lia. cbn [Z.opp].
    change (0 <? 0)%Z with false. cbv iota.
    rewrite Z.sub_diag. reflexivity. }
  split; [exact Hw|]. rewrite left_knot_unfold, Hw. reflexivity.
Qed.

Lemma left_knot_degree_one_witness :
  Knots.degree segment_knots = 1%Z /\
  Knots.window segment_knots = [] /\
  Knots.left_knot segment_knots (3 # 2) = Raise (ValueError "Time too small").
Proof.
  assert (H : Knots.degree segment_knots = 1%Z) by reflexivity.
  split; [exact H | exact (left_knot_degree_one segment_knots (3 # 2) H)].
Defined.

Lemma np_argmax_is_true (bs : list bool) :
  existsb (fun b => b) bs = true ->
  nth (Z.to_nat (np_argmax bs)) bs false = true.
Proof.
  induction bs as [|b bs IH]; intro Hex; [discriminate|].
  destruct b; cbn [np_argmax]; [reflexivity|].
  cbn [existsb orb] in Hex. rewrite Hex.
  pose proof (np_argmax_range bs Hex) as Hr.
  replace (Z.to_nat (1 + np_argmax bs)) with (S (Z.to_nat (np_argmax bs))) by lia.
  cbn [nth]. apply IH. exact Hex.
Qed.

Lemma np_argmax_is_first (bs : list bool) (j : nat) :
  existsb (fun b => b) bs = true ->
  (Z.of_nat j < np_argmax bs)%Z -> nth j bs true = false.
Proof.
  revert j. induction bs as [|b bs IH]; intros j Hex Hj; [discriminate|].
  destruct b; cbn [np_argmax] in Hj; [lia|].
  cbn [existsb orb] in Hex. rewrite Hex in Hj.
  destruct j as [|j]; [reflexivity|]. cbn [nth]. apply IH; [exact Hex | lia].
Qed.

Lemma nth_map_in {A B} (f : A -> B) (l : list A) (j : nat) (d : B) (d' : A) :
  (j < List.length l)%nat -> nth j (map f l) d = f (nth j l d').
Proof.
  revert j. induction l as [|x l IH]; intros [|j] Hj; simpl in *; try lia.
  - reflexivity.
  - apply IH. lia.
Qed.

(** ** Evaluation with an explicit knot number *)

(** For a spline of degree at least 1 and a knot number [k >= 0],
    [BSpline.__call__(t, k)] returns a point when [k] is in [knot_range()]
    and raises "Wrong knot index." otherwise. *)
Theorem call_index_domain (b : BSpline.t) (t : Q) (k : Z) :
  (1 <= Knots.degree (BSpline.base b))%Z ->
  len (BSpline.control_points b) =
    (len (Knots.knots (BSpline.base b)) - Knots.degree (BSpline.base b) + 1)%Z ->
  (0 <= k)%Z ->
  (In k (Knots.knot_range (BSpline.base b)) ->
   exists p, BSpline.call b t (Some k) = Ok p) /\
  (~ In k (Knots.knot_range (BSpline.base b)) ->
   BSpline.call b t (Some k) = Raise (ValueError "Wrong knot index.")).
Proof.
  intros Hd Hc Hk. pose proof (proj1 (knot_range_facts (BSpline.base b) k)) as Hin.
  unfold Knots.nb_curves, Knots.degree in *. split.
  - intro H. apply call_at_index; unfold Knots.degree; [lia | exact Hc | ].
    apply Hin in H. lia.
  - intro H.
    assert (Hout : (k < Knots.length (BSpline.base b)
                    \/ len (Knots.knots (BSpline.base b))
                       - Knots.length (BSpline.base b) - 2 < k)%Z).
    { destruct (Z.lt_ge_cases k (Knots.length (BSpline.base b))); [left; assumption|].
      destruct (Z.lt_ge_cases
                  (len (Knots.knots (BSpline.base b))
                   - Knots.length (BSpline.base b) - 2) k); [right; assumption|].
      exfalso. apply H, Hin. lia. }
    unfold BSpline.call. cbn [bind].
    set (L := Knots.length (BSpline.base b)) in *.
    assert (Hne : (len (py_slice (BSpline.control_points b)
                                 (Some (k - L)%Z) (Some (k + 2)%Z)) =? L + 2)%Z = false).
    { apply Z.eqb_neq. unfold py_slice, py_bound, len in *.
      rewrite length_firstn, length_skipn.
      repeat match goal with
             | |- context [(?x <? ?y)%Z] => destruct (Z.ltb_spec x y)
             end; lia. }
    rewrite Hne. reflexivity.
Qed.

Lemma call_index_domain_witness :
  (1 <= Knots.degree (BSpline.base double_knot_spline))%Z /\
  len (BSpline.control_points double_knot_spline) =
    (len (Knots.knots (BSpline.base double_knot_spline))
     - Knots.degree (BSpline.base double_knot_spline) + 1)%Z /\
  (0 <= 5)%Z /\
  (In 5%Z (Knots.knot_range (BSpline.base double_knot_spline)) ->
   exists p, BSpline.call double_knot_spline 1 (Some 5%Z) = Ok p) /\
  (~ In 5%Z (Knots.knot_range (BSpline.base double_knot_spline)) ->
   BSpline.call double_knot_spline 1 (Some 5%Z) = Raise (ValueError "Wrong knot index.")).
Proof.
  assert (Hd : (1 <= Knots.degree (BSpline.base double_knot_spline))%Z) by discriminate.
  assert (Hc : len (BSpline.control_points double_knot_spline) =
               (len (Knots.knots (BSpline.base double_knot_spline))
                - Knots.degree (BSpline.base double_knot_spline) + 1)%Z) by reflexivity.
  assert (Hk : (0 <= 5)%Z) by discriminate.
  split; [exact Hd | split; [exact Hc | split; [exact Hk |]]].
  exact (call_index_domain double_knot_spline 1 5 Hd Hc Hk).
Defined.

(** ** The shape of a Bezier object *)

(** [Bezier(control_points)] on n+1 points (an array: rows of one length
    [d]) has degree n, 2n knots (n zeros then n ones), one curve, and its
    fixed left knot [rknot - 1] is the only entry of [knot_range()] when
    n >= 1; on no point at all the constructor raises. *)
Theorem bezier_shape (control_points : list point) (d : nat) :
  (control_points = [] ->
   Bezier.init control_points
     = Raise (ValueError "negative dimensions are not allowed")) /\
  (control_points <> [] ->
   rectangular d control_points ->
   exists b,
     Bezier.init control_points = Ok b /\
     let K := BSpline.base (Bezier.spline b) in
     let n := Z.to_nat (len control_points - 1) in
     Knots.degree K = (len control_points - 1)%Z /\
     Knots.knots K = repeat 0 n ++ repeat 1 n /\
     Knots.nb_curves K = 1%Z /\
     ((2 <= len control_points)%Z -> Knots.knot_range K = [(Bezier.rknot b - 1)%Z])).
Proof.
  split.
  - intros ->. reflexivity.
  - intros Hne Hr.
    assert (Hpos : (1 <= len control_points)%Z).
    { destruct control_points; [congruence|]. rewrite len_cons.
      pose proof (len_nonneg control_points). lia. }
    unfold Bezier.init, Bezier.np_zeros.
    destruct (Z.ltb_spec (2 * (len control_points - 1)) 0); [lia|].
    cbn [bind]. unfold BSpline.init. rewrite (np_array_rectangular d _ Hr).
    cbn [bind]. eexists. split; [reflexivity|].
    cbn [Bezier.spline BSpline.base Bezier.rknot].
    set (n := Z.to_nat (len control_points - 1)).
    assert (Hknots : Bezier.fill_from (repeat 0 (Z.to_nat (2 * (len control_points - 1))))
                       (len control_points - 1) 1 = repeat 0 n ++ repeat 1 n).
    { unfold Bezier.fill_from, py_bound, len. rewrite repeat_length.
      destruct (Z.ltb_spec (Z.of_nat (List.length control_points) - 1) 0);
        [unfold len in Hpos; lia|].
      replace (Z.to_nat (Z.min (Z.of_nat (List.length control_points) - 1)
                               (Z.of_nat (Z.to_nat (2 * (Z.of_nat (List.length control_points) - 1))))))
        with n by (unfold n, len; lia).
      replace (Z.to_nat (2 * (Z.of_nat (List.length control_points) - 1)))
        with (n + n)%nat by (unfold n, len; lia).
      rewrite repeat_app, firstn_app, repeat_length, Nat.sub_diag.
      rewrite firstn_all2 by (rewrite repeat_length; lia).
      cbn [firstn]. rewrite app_nil_r. f_equal. f_equal. lia. }
    rewrite Hknots.
    assert (Hlen : len (repeat 0 n ++ repeat 1 n) = (2 * (len control_points - 1))%Z).
    { unfold len. rewrite length_app, !repeat_length. unfold n, len in *. lia. }
    unfold Knots.degree, Knots.nb_curves, Knots.knot_range, Knots.init.
    cbn [Knots.length Knots.knots]. rewrite Hlen.
    split; [lia|]. split; [reflexivity|]. split; [lia|].
    intro H2.
    destruct (Z.ltb_spec (2 * (len control_points - 1) - len control_points + 1 - 1) 0);
      [lia|].
    unfold Knots.nb_curves. cbn [Knots.length Knots.knots]. rewrite Hlen.
    replace (Z.to_nat (2 * (len control_points - 1)
                       - 2 * (2 * (len control_points - 1) - len control_points + 1 - 1) - 1))
      with 1%nat by lia.
    cbn [seq map]. f_equal. lia.
Qed.

Lemma bezier_shape_witness :
  parabola_points <> [] /\
  rectangular 2 parabola_points /\
  exists b,
    Bezier.init parabola_points = Ok b /\
    let K := BSpline.base (Bezier.spline b) in
    let n := Z.to_nat (len parabola_points - 1) in
    Knots.degree K = (len parabola_points - 1)%Z /\
    Knots.knots K = repeat 0 n ++ repeat 1 n /\
    Knots.nb_curves K = 1%Z /\
    ((2 <= len parabola_points)%Z -> Knots.knot_range K = [(Bezier.rknot b - 1)%Z]).
Proof.
  assert (H : parabola_points <> []) by discriminate.
  assert (Hr : rectangular 2 parabola_points) by (repeat constructor).
  split; [exact H | split; [exact Hr |]].
  exact (proj2 (bezier_shape parabola_points 2) H Hr).
Defined.

(** ** When [abscissae] returns *)

(** [abscissae()] returns exactly when the degree is at least 1 and there
    is a knot (otherwise [np.ones] or [np.convolve] raises), and it then
    returns [|len(knots) - degree| + 1] values. *)
Theorem abscissae_domain (K : Knots.t) :
  (returns (Knots.abscissae K) <->
   (1 <= Knots.degree K)%Z /\ Knots.knots K <> []) /\
  (forall res, Knots.abscissae K = Ok res ->
               len res = (Z.abs (len (Knots.knots K) - Knots.degree K) + 1)%Z).
Proof.
  unfold Knots.abscissae, np_ones.
  destruct (Z.ltb_spec (Knots.degree K) 0) as [Hneg|Hd]; cbn [bind].
  { split; [|discriminate]. split; [intros []|lia]. }
  rewrite map_repeat.
  set (c := 1 / inject_Z (Knots.degree K)).
  destruct (Z.to_nat (Knots.degree K)) as [|d] eqn:Ed.
  { destruct (Knots.knots K) as [|x kn]; cbn;
      (split; [|discriminate]); (split; [intros []|lia]). }
  destruct (Knots.knots K) as [|x kn] eqn:Ek.
  { split; [|discriminate]. cbn. split; [intros []|intros [_ Hne]; congruence]. }
  rewrite np_convolve_valid_nonempty by discriminate.
  split.
  - cbn. split; [intros _; split; [lia | discriminate] | intros _; exact I].
  - intros res E. apply Ok_inj in E. subst res.
    rewrite repeat_length, rev_repeat. unfold len.
    destruct (_ <? _)%nat eqn:E.
    + apply Nat.ltb_lt in E.
      rewrite correlate_valid_length; rewrite ?repeat_length; lia.
    + apply Nat.ltb_ge in E.
      rewrite correlate_valid_length;
        rewrite ?repeat_length, ?length_rev; cbn [List.length] in *; lia.
Qed.

(** ** The number of points of [plot_basis] *)

(** [plot_basis(x, h)] lays out [2 len(x) - 3] points for every array of
    at least two abscissae, whatever the parity of the degree; it returns 1
    for a single abscissa and raises on an empty array. *)
Theorem plot_basis_count (x : list Q) (h : Q) :
  (x = [] -> plot_basis x h = Raise IndexError) /\
  (len x = 1%Z -> plot_basis x h = Ok 1%Z) /\
  ((2 <= len x)%Z -> plot_basis x h = Ok (2 * len x - 3)%Z).
Proof.
  split; [intros ->; reflexivity|]. split.
  - intro H1. destruct x as [|a [|b x]]; try (unfold len in H1; cbn in H1; lia).
    reflexivity.
  - intro H2. unfold plot_basis.
    assert (Hne : x <> []) by (intros ->; unfold len in H2; cbn in H2; lia).
    assert (H0 : py_getitem x 0 = Ok (nth 0 x 0)).
    { destruct x as [|a x']; [congruence | reflexivity]. }
    rewrite H0. cbn [bind].
    rewrite (py_getitem_last x 0 Hne). cbn [bind].
    f_equal. unfold len in *. rewrite !length_app, !length_map.
    unfold np_arange. rewrite length_map, length_seq.
    destruct (Z.eqb_spec ((Z.of_nat (List.length x) - 2 - 1) mod 2) 0) as [He|Ho];
      cbn [negb].
    + Z.div_mod_to_equations. lia.
    + rewrite length_map, map2_length.
      assert (Hs1 : List.length (py_slice x None (Some (-1)%Z))
                    = (List.length x - 1)%nat) by slice_length.
      assert (Hs2 : List.length (py_slice x (Some 1%Z) None)
                    = (List.length x - 1)%nat) by slice_length.
      rewrite Hs1, Hs2. Z.div_mod_to_equations. lia.
Qed.

Lemma plot_basis_count_witness :
  (2 <= len [0; 1; 2; 3; 4]%Q)%Z /\
  plot_basis [0; 1; 2; 3; 4] 1 = Ok (2 * len [0; 1; 2; 3; 4]%Q - 3)%Z.
Proof.
  assert (H : (2 <= len [0; 1; 2; 3; 4]%Q)%Z) by discriminate.
  split; [exact H | exact (proj2 (proj2 (plot_basis_count [0; 1; 2; 3; 4] 1)) H)].
Defined.

(** ** Edge cases and outcomes of the solver *)

Section SolverEdges.

Context {P V G T : Type} `{Rows T}.
Variable exponential : T -> G.

(** [Interpolator.__init__] needs a point and two boundary velocities: it
    raises IndexError otherwise, and else stores one third of the connection
    of the first point with the first velocity and of the last point with
    the second one. *)
Theorem init_domain (g : Geometry P V G T) (p : P) (ps points : list P)
    (v0 v1 : V) (vs velocities : list V) :
  Interpolator.init (p :: ps) (v0 :: v1 :: vs) g =
    Ok (Interpolator.mk (p :: ps)
          [rscale (1 / 3) (connection g p v0);
           rscale (1 / 3) (connection g (last ps p) v1)]
          g (len (p :: ps))) /\
  Interpolator.init [] velocities g = Raise IndexError /\
  Interpolator.init points [] g = Raise IndexError /\
  Interpolator.init points [v0] g = Raise IndexError.
Proof.
  unfold Interpolator.init. cbn [map sequence fst snd].
  split; [|split; [|split]].
  - change (py_getitem (p :: ps) 0) with (@Ok exn P p).
    change (py_getitem (v0 :: v1 :: vs) 0) with (@Ok exn V v0).
    change (py_getitem (v0 :: v1 :: vs) 1) with (@Ok exn V v1).
    rewrite (py_getitem_last (p :: ps) p) by discriminate.
    rewrite last_shift. reflexivity.
  - reflexivity.
  - destruct points; reflexivity.
  - destruct points as [|q qs]; [reflexivity|].
    change (py_getitem (q :: qs) 0) with (@Ok exn P q).
    rewrite (py_getitem_last (q :: qs) q) by discriminate. reflexivity.
Qed.

(** The shape of one pass that ends with a measurable change: the new
    array is the interior just computed between the two boundary
    deformations. *)
Lemma sweep_shape (self : @Interpolator.t P V G T) (k : Z) (D D' : list T) (i : Z)
    (error : list T) (m : Q) :
  Interpolator.sweep exponential self k D = Ok (D', i, error) ->
  np_max_abs error = Ok m ->
  exists interior b0 b1,
    Interpolator.interior_deformations exponential self D = Ok interior /\
    py_getitem (Interpolator.boundary_deformations self) 0 = Ok b0 /\
    py_getitem (Interpolator.boundary_deformations self) 1 = Ok b1 /\
    D' = b0 :: interior ++ [b1] /\
    error = map2 rsub (py_slice D (Some 1%Z) (Some (-1)%Z)) interior.
Proof.
  unfold Interpolator.sweep. intros Hs Hm.
  destruct (Interpolator.interior_deformations exponential self D) as [interior|];
    cbn [bind] in Hs; [|discriminate].
  destruct (py_set_slice D 1 (-1) interior) as [D1|] eqn:Hset;
    cbn [bind] in Hs; [|discriminate].
  cbn [Interpolator.set_boundary] in Hs.
  destruct (py_getitem (Interpolator.boundary_deformations self) 0) as [b0|];
    cbn [bind] in Hs; [|discriminate].
  destruct (py_setitem D1 0 b0) as [D2|] eqn:Hs0; cbn [bind] in Hs; [|discriminate].
  destruct (py_getitem (Interpolator.boundary_deformations self) 1) as [b1|];
    cbn [bind] in Hs; [|discriminate].
  destruct (py_setitem D2 (-1) b1) as [D3|] eqn:Hs1; cbn [bind fst snd] in Hs;
    [|discriminate].
  apply Ok_inj in Hs.
  assert (HD' : D3 = D') by congruence.
  assert (Herr : map2 rsub (py_slice D (Some 1%Z) (Some (-1)%Z)) interior = error)
    by congruence.
  clear Hs. subst D' error.
  assert (Hne : (1 <= List.length
                        (map2 rsub (py_slice D (Some 1%Z) (Some (-1)%Z)) interior))%nat).
  { destruct (map2 rsub _ interior) eqn:E; [discriminate Hm | cbn; lia]. }
  rewrite map2_length, slice_inner, length_firstn, length_skipn in Hne.
  assert (Hn : (3 <= List.length D)%nat) by lia.
  unfold py_set_slice, py_bound, len in Hset.
  change (1 <? 0)%Z with false in Hset. change (-1 <? 0)%Z with true in Hset.
  cbv iota in Hset.
  replace (Z.to_nat (Z.min 1 (Z.of_nat (List.length D)))) with 1%nat in Hset by lia.
  replace (Z.to_nat (Z.max (-1 + Z.of_nat (List.length D)) 0))
    with (List.length D - 1)%nat in Hset by lia.
  destruct (List.length interior =? List.length D - 1 - 1)%nat; [|discriminate].
  apply Ok_inj in Hset. rewrite Nat.max_r in Hset by lia.
  destruct D as [|x D0]; [cbn in Hn; lia|].
  rewrite (skipn_nth (List.length (x :: D0) - 1) (x :: D0) rzero) in Hset
    by (cbn [List.length]; lia).
  rewrite (skipn_all2 (n := S (List.length (x :: D0) - 1))) in Hset
    by (cbn [List.length]; lia).
  cbn [firstn app] in Hset. subst D1.
  rewrite py_setitem_head in Hs0. apply Ok_inj in Hs0. subst D2.
  change (b0 :: interior ++ [?y]) with ((b0 :: interior) ++ [y]) in Hs1.
  rewrite py_setitem_last in Hs1. apply Ok_inj in Hs1. subst D3.
  exists interior, b0, b1. repeat split; reflexivity.
Qed.

(** Whatever the geometry and the points, an array that
    [compute_deformations] returns was produced by one of the 500 passes
    whose largest absolute change is below the tolerance, and consists of
    the interior computed in that pass between the two boundary
    deformations. *)
Theorem returned_array_shape (self : @Interpolator.t P V G T) (R : list T) :
  Interpolator.compute_deformations exponential self = Ok R ->
  exists k Dk interior m b0 b1,
    (0 <= k < Interpolator.max_iter)%Z /\
    Interpolator.interior_deformations exponential self Dk = Ok interior /\
    np_max_abs (map2 rsub (py_slice Dk (Some 1%Z) (Some (-1)%Z)) interior) = Ok m /\
    m < Interpolator.tolerance /\
    py_getitem (Interpolator.boundary_deformations self) 0 = Ok b0 /\
    py_getitem (Interpolator.boundary_deformations self) 1 = Ok b1 /\
    R = b0 :: interior ++ [b1].
Proof.
  unfold Interpolator.compute_deformations. intro Hsolve.
  destruct (solve_returns_converged exponential self _ _ _ R Hsolve)
    as (k & Dk & i & error & m & Hin & Hsw & Hm & Hlt).
  destruct (sweep_shape self k Dk R i error m Hsw Hm)
    as (interior & b0 & b1 & Hi & Hb0 & Hb1 & HR & Herr).
  exists k, Dk, interior, m, b0, b1.
  split.
  { unfold py_range in Hin. apply in_map_iff in Hin. destruct Hin as [j [<- Hj]].
    apply in_seq in Hj. unfold Interpolator.max_iter in *. lia. }
  subst error. repeat split; assumption.
Qed.

(** Whatever the geometry and the points, the index carried by the
    no-convergence exception of [compute_deformations] is 1. *)
Theorem no_convergence_index (self : @Interpolator.t P V G T) (i : Z) (error : list T) :
  Interpolator.compute_deformations exponential self
    = Raise (Interpolator.NoConvergence i error) ->
  i = 1%Z.
Proof.
  unfold Interpolator.compute_deformations. intro Hsolve.
  refine (solve_reports_one exponential self _ _ None i error _ Hsolve).
  intros i' e' E. discriminate E.
Qed.

(** With one or two interpolation points there is no interior row: the
    first pass ends in the ValueError of [np.max] on an empty array. *)
Theorem solve_needs_three_points (points : list P) (velocities : list V)
    (g : Geometry P V G T) (self : @Interpolator.t P V G T) :
  Interpolator.init points velocities g = Ok self ->
  (List.length points <= 2)%nat ->
  List.length (zero_deformations g points) = List.length points ->
  Interpolator.compute_deformations exponential self =
  Raise (Interpolator.Py
           (ValueError "zero-size array to reduction operation maximum which has no identity")).
Proof.
  intros Hinit Hn Hz.
  destruct (init_inv points velocities g self Hinit)
    as (q0 & w0 & q1 & w1 & Hq0 & _ & _ & _ & ->).
  unfold Interpolator.compute_deformations.
  cbn [Interpolator.geometry Interpolator.interpolation_points].
  destruct points as [|p [|q [|r ps]]]; [discriminate Hq0 | | | cbn in Hn; lia].
  - destruct (zero_deformations g [p]) as [|z [|? ?]]; try discriminate Hz.
    reflexivity.
  - destruct (zero_deformations g [p; q]) as [|z1 [|z2 [|? ?]]]; try discriminate Hz.
    reflexivity.
Qed.

End SolverEdges.

Lemma returned_array_shape_witness :
  Interpolator.compute_deformations line_exponential zigzag_solver = Ok [1; 0; 0; -1] /\
  exists k Dk interior m b0 b1,
    (0 <= k < Interpolator.max_iter)%Z /\
    Interpolator.interior_deformations line_exponential zigzag_solver Dk = Ok interior /\
    np_max_abs (map2 rsub (py_slice Dk (Some 1%Z) (Some (-1)%Z)) interior) = Ok m /\
    m < Interpolator.tolerance /\
    py_getitem (Interpolator.boundary_deformations zigzag_solver) 0 = Ok b0 /\
    py_getitem (Interpolator.boundary_deformations zigzag_solver) 1 = Ok b1 /\
    [1; 0; 0; -1] = b0 :: interior ++ [b1].
Proof.
  assert (H : Interpolator.compute_deformations line_exponential zigzag_solver
              = Ok [1; 0; 0; -1]) by (vm_compute; reflexivity).
  split; [exact H | exact (returned_array_shape line_exponential zigzag_solver _ H)].
Defined.

Lemma no_convergence_index_witness :
  exists i error,
    Interpolator.compute_deformations line_exponential far_solver
      = Raise (Interpolator.NoConvergence i error) /\
    i = 1%Z.
Proof.
  eexists. eexists.
  match goal with
  | |- ?A /\ _ => assert (H : A) by (vm_compute; reflexivity)
  end.
  split; [exact H | exact (no_convergence_index line_exponential far_solver _ _ H)].
Defined.

Lemma solve_needs_three_points_witness :
  Interpolator.init [0; 1] [3; -3] line
    = Ok (Interpolator.mk [0; 1] [1; -1] line 2) /\
  (List.length [0; 1]%Q <= 2)%nat /\
  List.length (zero_deformations line [0; 1]) = List.length [0; 1]%Q /\
  Interpolator.compute_deformations line_exponential
    (Interpolator.mk [0; 1] [1; -1] line 2) =
  Raise (Interpolator.Py
           (ValueError "zero-size array to reduction operation maximum which has no identity")).
Proof.
  assert (Hi : Interpolator.init [0; 1] [3; -3] line
               = Ok (Interpolator.mk [0; 1] [1; -1] line 2))
    by (vm_compute; reflexivity).
  assert (Hn : (List.length [0; 1]%Q <= 2)%nat) by (cbn; lia).
  assert (Hz : List.length (zero_deformations line [0; 1]) = List.length [0; 1]%Q)
    by reflexivity.
  split; [exact Hi | split; [exact Hn | split; [exact Hz |]]].
  exact (solve_needs_three_points line_exponential [0; 1] [3; -3] line _ Hi Hn Hz).
Defined.

(** ** What evaluation preserves *)

Lemma Forall_firstn {A} (Inv : A -> Prop) (n : nat) (l : list A) :
  Forall Inv l -> Forall Inv (firstn n l).
Proof.
  intro Hl. revert n. induction Hl as [|x l Hx _ IH]; intros [|n]; cbn [firstn];
    constructor; auto.
Qed.

Lemma Forall_skipn {A} (Inv : A -> Prop) (n : nat) (l : list A) :
  Forall Inv l -> Forall Inv (skipn n l).
Proof.
  intro Hl. revert n. induction Hl as [|x l Hx Hl IH]; intros [|n]; cbn [skipn];
    auto.
Qed.

Lemma Forall_py_slice {A} (Inv : A -> Prop) (l : list A) (start stop : option Z) :
  Forall Inv l -> Forall Inv (py_slice l start stop).
Proof.
  intro Hl. unfold py_slice. apply Forall_firstn, Forall_skipn, Hl.
Qed.

Section Invariant.

Variable Inv : point -> Prop.
Hypothesis Inv_geodesic :
  forall p q theta, Inv p -> Inv q -> Inv (geodesic p q theta).

Lemma geodesic_rows_invariant (P1 P2 : list point) (r : list Q) (pts : list point) :
  Forall Inv P1 -> Forall Inv P2 ->
  BSpline.geodesic_rows P1 P2 r = Ok pts -> Forall Inv pts.
Proof.
  intros H1 H2. unfold BSpline.geodesic_rows.
  assert (Hzip : forall r', Forall Inv
            (map2 (fun pq theta => geodesic (fst pq) (snd pq) theta) (combine P1 P2) r')).
  { clear r pts. revert P2 H2.
    induction H1 as [|p P1 Hp _ IH]; intros P2 H2 r'; [constructor|].
    destruct H2 as [|q P2 Hq H2]; [constructor|].
    destruct r' as [|th r']; [constructor|].
    cbn [combine map2 fst snd]. constructor; [apply Inv_geodesic; assumption|].
    apply IH. exact H2. }
  assert (Hone : forall th, Forall Inv (map2 (fun p q => geodesic p q th) P1 P2)).
  { intro th. clear r pts Hzip. revert P2 H2.
    induction H1 as [|p P1 Hp _ IH]; intros P2 H2; [constructor|].
    destruct H2 as [|q P2 Hq H2]; [constructor|].
    cbn [map2]. constructor; [apply Inv_geodesic; assumption|]. apply IH. exact H2. }
  destruct (_ =? _)%nat.
  - intro E. apply Ok_inj in E. subst pts. apply Hzip.
  - destruct r as [|th [|th' r]].
    + destruct P1 as [|p [|? ?]]; try discriminate.
      destruct P2 as [|q [|? ?]]; try discriminate.
      intro E. apply Ok_inj in E. subst pts. constructor.
    + intro E. apply Ok_inj in E. subst pts. apply Hone.
    + destruct P1 as [|p [|? ?]]; try discriminate.
      destruct P2 as [|q [|? ?]]; try discriminate.
      intro E. apply Ok_inj in E. subst pts.
      inversion H1; subst. inversion H2; subst.
      apply Forall_map, Forall_forall. intros th0 _. apply Inv_geodesic; assumption.
Qed.

Lemma casteljau_invariant (ns : list Z) (t : Q) :
  forall (pts : list point) (kns : list Q) (pts' : list point),
    Forall Inv pts ->
    BSpline.casteljau ns t pts kns = Ok pts' -> Forall Inv pts'.
Proof.
  induction ns as [|n ns IH]; intros pts kns pts' Hpts Hc.
  - apply Ok_inj in Hc. subst. exact Hpts.
  - cbn [BSpline.casteljau] in Hc.
    destruct (sequence _) as [r|]; cbn [bind] in Hc; [|discriminate].
    destruct (BSpline.geodesic_rows _ _ r) as [mid|] eqn:Hg; cbn [bind] in Hc;
      [|discriminate].
    refine (IH mid _ pts' _ Hc).
    refine (geodesic_rows_invariant _ _ r mid _ _ Hg);
      apply Forall_py_slice; exact Hpts.
Qed.

(** A set of points closed under [geodesic] that contains the control
    points contains every value of the spline. *)
Lemma call_invariant (b : BSpline.t) (t : Q) (lknot : option Z) (p : point) :
  Forall Inv (BSpline.control_points b) ->
  BSpline.call b t lknot = Ok p -> Inv p.
Proof.
  intros Hc. unfold BSpline.call.
  destruct (match lknot with None => _ | Some k => _ end) as [k|]; cbn [bind];
    [|discriminate].
  destruct (negb _); [discriminate|].
  destruct (BSpline.casteljau _ t _ _) as [pts|] eqn:Hcast; cbn [bind]; [|discriminate].
  assert (Hpts : Forall Inv pts).
  { refine (casteljau_invariant _ t _ _ pts _ Hcast).
    apply Forall_py_slice. exact Hc. }
  destruct pts as [|q pts]; [discriminate|].
  intro E. apply Ok_inj in E. cbn in E. subst q. inversion Hpts; assumption.
Qed.

End Invariant.

(** The points a spline returns have the dimension of its control points:
    when every row of the array of control points has [d] coordinates,
    every evaluation that returns, on any interval and at any parameter,
    returns a point of [d] coordinates. *)
Theorem call_dimension (b : BSpline.t) (t : Q) (lknot : option Z) (d : nat)
    (p : point) :
  rectangular d (BSpline.control_points b) ->
  BSpline.call b t lknot = Ok p ->
  List.length p = d.
Proof.
  intros Hr Hcall.
  refine (call_invariant (fun q => List.length q = d) _ b t lknot p Hr Hcall).
  intros p0 q0 theta Hp Hq. unfold geodesic. rewrite map2_length. lia.
Qed.

Lemma call_dimension_witness :
  exists p,
    rectangular 2 (BSpline.control_points double_knot_spline) /\
    BSpline.call double_knot_spline 1 None = Ok p /\
    List.length p = 2%nat.
Proof.
  eexists.
  assert (Hr : rectangular 2 (BSpline.control_points double_knot_spline))
    by (repeat constructor).
  match goal with
  | |- _ /\ ?A /\ _ => assert (H : A) by (vm_compute; reflexivity)
  end.
  split; [exact Hr | split; [exact H |]].
  exact (call_dimension double_knot_spline 1 None 2 _ Hr H).
Defined.

(** ** Bezier evaluation is the classical scheme *)

Lemma slice_to_neg {A} (l : list A) (k : nat) :
  (1 <= k <= List.length l)%nat ->
  py_slice l None (Some (- Z.of_nat k)%Z) = firstn (List.length l - k) l.
Proof.
  intro Hk. unfold py_slice, py_bound, len.
  destruct (Z.ltb_spec (- Z.of_nat k) 0); [|lia].
  cbn [Z.to_nat skipn]. f_equal. lia.
Qed.

Lemma slice_from {A} (l : list A) (k : nat) :
  (k <= List.length l)%nat ->
  py_slice l (Some (Z.of_nat k)) None = skipn k l.
Proof.
  intro Hk. unfold py_slice, py_bound, len.
  destruct (Z.ltb_spec (Z.of_nat k) 0); [lia|].
  replace (Z.to_nat (Z.min (Z.of_nat k) (Z.of_nat (List.length l)))) with k by lia.
  apply firstn_all2. rewrite length_skipn. lia.
Qed.

Lemma slice_whole {A} (l : list A) (a b : Z) :
  a = 0%Z -> b = len l -> py_slice l (Some a) (Some b) = l.
Proof.
  intros -> ->. unfold py_slice, py_bound, len.
  change (0 <? 0)%Z with false. cbv iota.
  destruct (Z.ltb_spec (Z.of_nat (List.length l)) 0); [lia|].
  replace (Z.to_nat (Z.min 0 (Z.of_nat (List.length l)))) with 0%nat by lia.
  cbn [skipn]. apply firstn_all2. lia.
Qed.

Lemma map2_repeat {A B C} (f : A -> B -> C) (a : A) (b : B) (n : nat) :
  map2 f (repeat a n) (repeat b n) = repeat (f a b) n.
Proof. induction n as [|n IH]; cbn [repeat map2]; congruence. Qed.

Lemma sequence_repeat {E A} (x : A) (n : nat) :
  sequence (repeat (@Ok E A x) n) = Ok (repeat x n).
Proof.
  induction n as [|n IH]; [reflexivity|].
  cbn [repeat sequence bind]. rewrite IH. reflexivity.
Qed.

Lemma lerp_pairs_length (theta : Q) (pts : list point) :
  List.length (lerp_pairs theta pts) = (List.length pts - 1)%nat.
Proof.
  induction pts as [|p [|q rest] IH]; try reflexivity.
  change (lerp_pairs theta (p :: q :: rest))
    with (geodesic p q theta :: lerp_pairs theta (q :: rest)).
  cbn [List.length] in *. lia.
Qed.

Lemma zip_is_lerp_pairs (theta : Q) (pts : list point) (k : nat) :
  List.length pts = S k ->
  map2 (fun pq th => geodesic (fst pq) (snd pq) th)
       (combine (firstn k pts) (skipn 1 pts)) (repeat theta k)
  = lerp_pairs theta pts.
Proof.
  revert k. induction pts as [|p rest IH]; intros k Hk; [discriminate|].
  destruct rest as [|q rest].
  - cbn in Hk. assert (k = 0)%nat by lia. subst k. reflexivity.
  - destruct k as [|k]; [cbn in Hk; lia|].
    change (lerp_pairs theta (p :: q :: rest))
      with (geodesic p q theta :: lerp_pairs theta (q :: rest)).
    rewrite <- (IH k) by (cbn [List.length] in *; lia).
    reflexivity.
Qed.

Lemma bezier_knots_inner (m : nat) :
  py_slice (repeat 0 (S m) ++ repeat 1 (S m)) (Some 1%Z) (Some (-1)%Z)
  = repeat 0 m ++ repeat 1 m.
Proof.
  rewrite slice_inner, length_app, !repeat_length.
  change (skipn 1 (repeat 0 (S m) ++ repeat 1 (S m)))
    with (repeat 0 m ++ (1 :: repeat 1 m)).
  rewrite repeat_cons, app_assoc.
  replace (S m + S m - 2)%nat with (List.length (repeat 0 m ++ repeat 1 m))
    by (rewrite length_app, !repeat_length; lia).
  rewrite firstn_app, Nat.sub_diag, firstn_all. cbn [firstn]. apply app_nil_r.
Qed.

(** On the knots of a Bezier object every round of the loop is a round of
    the classical scheme at the ratio [(t - 0) / (1 - 0)]. *)
Lemma casteljau_bezier (m : nat) (t : Q) :
  forall pts : list point,
    List.length pts = S m ->
    BSpline.casteljau (BSpline.rounds (Z.of_nat m)) t pts
                      (repeat 0 m ++ repeat 1 m)
    = Ok (de_casteljau m ((t - 0) / (1 - 0)) pts).
Proof.
  induction m as [|m IH]; intros pts Hp; [reflexivity|].
  rewrite rounds_succ. cbn [BSpline.casteljau de_casteljau].
  rewrite slice_to_neg by (rewrite length_app, !repeat_length; lia).
  rewrite slice_from by (rewrite length_app, !repeat_length; lia).
  rewrite length_app, !repeat_length.
  replace (S m + S m - S m)%nat with (S m) by lia.
  rewrite firstn_app, repeat_length, Nat.sub_diag, firstn_all2
    by (rewrite repeat_length; lia).
  rewrite skipn_app, repeat_length, Nat.sub_diag, skipn_all2
    by (rewrite repeat_length; lia).
  cbn [firstn skipn app]. rewrite app_nil_r.
  rewrite map2_repeat. unfold BSpline.patch. rewrite !map_repeat.
  change (Qeq_bool (1 - 0) 0) with false. cbv iota.
  rewrite map2_repeat. unfold np_divide.
  change (Qeq_bool (1 - 0) 0) with false. cbv iota.
  rewrite sequence_repeat. cbn [bind].
  assert (H1 : py_slice pts None (Some (-1)%Z) = firstn (List.length pts - 1) pts)
    by (apply (slice_to_neg pts 1); lia).
  assert (H2 : py_slice pts (Some 1%Z) None = skipn 1 pts)
    by (apply (slice_from pts 1); lia).
  rewrite H1, H2.
  unfold BSpline.geodesic_rows.
  rewrite length_firstn, repeat_length, Hp.
  replace (Nat.min (S (S m) - 1) (S (S m))) with (S m) by lia.
  rewrite Nat.eqb_refl.
  replace (S (S m) - 1)%nat with (S m) by lia.
  rewrite zip_is_lerp_pairs by exact Hp. cbn [bind].
  rewrite bezier_knots_inner. apply IH.
  rewrite lerp_pairs_length. lia.
Qed.

Lemma fill_from_zeros (n : nat) :
  Bezier.fill_from (repeat 0 (n + n)) (Z.of_nat n) 1 = repeat 0 n ++ repeat 1 n.
Proof.
  unfold Bezier.fill_from, py_bound, len. rewrite repeat_length.
  destruct (Z.ltb_spec (Z.of_nat n) 0); [lia|].
  replace (Z.to_nat (Z.min (Z.of_nat n) (Z.of_nat (n + n)))) with n by lia.
  rewrite repeat_app, firstn_app, repeat_length, Nat.sub_diag.
  rewrite firstn_all2 by (rewrite repeat_length; lia).
  cbn [firstn]. rewrite app_nil_r. f_equal. f_equal. lia.
Qed.

Lemma bezier_init_explicit (control_points : list point) (d : nat) :
  control_points <> [] ->
  rectangular d control_points ->
  let n := (List.length control_points - 1)%nat in
  Bezier.init control_points =
  Ok (Bezier.mk
        (BSpline.mk (Knots.mk (repeat 0 n ++ repeat 1 n) (Z.of_nat n - 1))
                    control_points)
        (Z.of_nat n)).
Proof.
  intros Hne Hr n.
  assert (Hpos : (1 <= List.length control_points)%nat).
  { destruct control_points; [congruence | cbn; lia]. }
  unfold Bezier.init, Bezier.np_zeros.
  replace (len control_points - 1)%Z with (Z.of_nat n) by (unfold n, len; lia).
  destruct (Z.ltb_spec (2 * Z.of_nat n) 0); [lia|].
  cbn [bind]. unfold BSpline.init, Knots.init.
  rewrite (np_array_rectangular d _ Hr). cbn [bind].
  replace (Z.to_nat (2 * Z.of_nat n)) with (n + n)%nat by lia.
  rewrite fill_from_zeros.
  assert (HL : (len (repeat 0%Q n ++ repeat 1%Q n) - len control_points + 1 - 1
                = Z.of_nat n - 1)%Z).
  { unfold len. rewrite length_app, !repeat_length. unfold n. lia. }
  do 4 f_equal. exact HL.
Qed.

Lemma bezier_call_classical (control_points : list point) (d : nat) (t : Q) :
  control_points <> [] ->
  rectangular d control_points ->
  exists b p,
    Bezier.init control_points = Ok b /\
    de_casteljau (List.length control_points - 1) ((t - 0) / (1 - 0)) control_points
      = [p] /\
    Bezier.call b t = Ok p.
Proof.
  intros Hne Hr.
  pose proof (bezier_init_explicit control_points d Hne Hr) as Hinit.
  cbv zeta in Hinit.
  set (n := (List.length control_points - 1)%nat) in *.
  assert (Hpos : (1 <= List.length control_points)%nat).
  { destruct control_points; [congruence | cbn; lia]. }
  assert (Hlen : List.length control_points = S n) by (unfold n; lia).
  assert (Hone : exists p, de_casteljau n ((t - 0) / (1 - 0)) control_points = [p]).
  { destruct (casteljau_total n t control_points (repeat 0 n ++ repeat 1 n) Hlen)
      as [p Hp].
    { rewrite length_app, !repeat_length. lia. }
    rewrite casteljau_bezier in Hp by exact Hlen.
    exists p. apply Ok_inj in Hp. exact Hp. }
  destruct Hone as [p Hp].
  eexists. exists p. split; [exact Hinit|]. split; [exact Hp|].
  unfold Bezier.call, BSpline.call.
  cbn [Bezier.spline Bezier.rknot BSpline.base BSpline.control_points
       Knots.length Knots.knots bind].
  unfold Knots.degree. cbn [Knots.length].
  rewrite (slice_whole control_points) by (unfold len; lia).
  rewrite (slice_whole (repeat 0 n ++ repeat 1 n))
    by (unfold len; rewrite ?length_app, ?repeat_length; lia).
  replace (len control_points =? Z.of_nat n - 1 + 2)%Z with true
    by (symmetry; apply Z.eqb_eq; unfold len; lia).
  cbn [negb].
  replace (Z.of_nat n - 1 + 1)%Z with (Z.of_nat n) by lia.
  rewrite casteljau_bezier by exact Hlen. cbn [bind]. rewrite Hp. reflexivity.
Qed.

(** For every non-empty array of control points (rows of one length [d])
    and every parameter, [Bezier.__call__] returns the single point the
    classical de Casteljau scheme ends on after [n] rounds at the ratio
    [(t - 0) / (1 - 0)]. *)
Theorem bezier_is_de_casteljau (control_points : list point) (d : nat) (t : Q) :
  control_points <> [] ->
  rectangular d control_points ->
  exists b p,
    Bezier.init control_points = Ok b /\
    de_casteljau (List.length control_points - 1) ((t - 0) / (1 - 0)) control_points
      = [p] /\
    Bezier.call b t = Ok p.
Proof. exact (bezier_call_classical control_points d t). Qed.

Lemma bezier_is_de_casteljau_witness :
  parabola_points <> [] /\
  rectangular 2 parabola_points /\
  exists b p,
    Bezier.init parabola_points = Ok b /\
    de_casteljau (List.length parabola_points - 1) (((1 # 3) - 0) / (1 - 0))
                 parabola_points = [p] /\
    Bezier.call b (1 # 3) = Ok p.
Proof.
  assert (H : parabola_points <> []) by discriminate.
  assert (Hr : rectangular 2 parabola_points) by (repeat constructor).
  split; [exact H | split; [exact Hr |]].
  exact (bezier_is_de_casteljau parabola_points 2 (1 # 3) H Hr).
Defined.

(** ** A Bezier curve starts and ends on its control points *)

Lemma peq_refl (p : point) : peq p p.
Proof. unfold peq. induction p; constructor; [reflexivity | assumption]. Qed.

Lemma peq_trans (p q r : point) : peq p q -> peq q r -> peq p r.
Proof.
  unfold peq. intro Hpq. revert r.
  induction Hpq as [|a b p q Hab _ IH]; intros r Hqr; inversion Hqr; subst;
    constructor; [eapply Qeq_trans; eassumption | apply IH; assumption].
Qed.

Lemma geodesic_at_zero (theta : Q) (p q : point) :
  theta == 0 -> List.length p = List.length q -> peq (geodesic p q theta) p.
Proof.
  intros Ht. unfold peq, geodesic. revert q.
  induction p as [|a p IH]; intros [|b q] Hl; try discriminate; cbn [map2];
    constructor.
  - rewrite Ht. ring.
  - apply IH. cbn in Hl. lia.
Qed.

Lemma geodesic_at_one (theta : Q) (p q : point) :
  theta == 1 -> List.length p = List.length q -> peq (geodesic p q theta) q.
Proof.
  intros Ht. unfold peq, geodesic. revert q.
  induction p as [|a p IH]; intros [|b q] Hl; try discriminate; cbn [map2];
    constructor.
  - rewrite Ht. ring.
  - apply IH. cbn in Hl. lia.
Qed.

Lemma rectangular_lerp_pairs (d : nat) (theta : Q) (pts : list point) :
  rectangular d pts -> rectangular d (lerp_pairs theta pts).
Proof.
  unfold rectangular. intro Hr.
  induction Hr as [|p rest Hp Hrest IH]; [constructor|].
  destruct rest as [|q rest]; [constructor|].
  change (lerp_pairs theta (p :: q :: rest))
    with (geodesic p q theta :: lerp_pairs theta (q :: rest)).
  constructor; [|exact IH].
  inversion Hrest; subst. unfold geodesic. rewrite map2_length. lia.
Qed.

Lemma de_casteljau_head (theta : Q) (d : nat) :
  theta == 0 ->
  forall (n : nat) (pts : list point),
    rectangular d pts -> (n < List.length pts)%nat ->
    peq (hd [] (de_casteljau n theta pts)) (hd [] pts).
Proof.
  intros Ht. induction n as [|n IH]; intros pts Hr Hn; [apply peq_refl|].
  cbn [de_casteljau].
  eapply peq_trans.
  - apply IH; [apply rectangular_lerp_pairs; exact Hr|].
    rewrite lerp_pairs_length. lia.
  - destruct pts as [|p [|q rest]]; try (cbn in Hn; lia).
    change (lerp_pairs theta (p :: q :: rest))
      with (geodesic p q theta :: lerp_pairs theta (q :: rest)).
    cbn [hd]. apply geodesic_at_zero; [exact Ht|].
    inversion Hr as [|? ? Hp Hr']; subst. inversion Hr'; subst. congruence.
Qed.

Lemma lerp_pairs_last (theta : Q) (d : nat) (pts : list point) :
  theta == 1 -> rectangular d pts -> (2 <= List.length pts)%nat ->
  peq (last (lerp_pairs theta pts) []) (last pts []).
Proof.
  intros Ht Hr. induction Hr as [|p rest Hp Hrest IH]; intro Hn; [cbn in Hn; lia|].
  destruct rest as [|q rest]; [cbn in Hn; lia|].
  change (lerp_pairs theta (p :: q :: rest))
    with (geodesic p q theta :: lerp_pairs theta (q :: rest)).
  destruct rest as [|r rest].
  - cbn [lerp_pairs last]. apply geodesic_at_one; [exact Ht|].
    inversion Hrest; subst. congruence.
  - rewrite (last_shift (geodesic p q theta)).
    change (last (p :: q :: r :: rest) []) with (last (q :: r :: rest) []).
    change (lerp_pairs theta (q :: r :: rest))
      with (geodesic q r theta :: lerp_pairs theta (r :: rest)) in *.
    rewrite (last_default _ _ (geodesic p q theta) []).
    apply IH. cbn [List.length]. lia.
Qed.

Lemma de_casteljau_last (theta : Q) (d : nat) :
  theta == 1 ->
  forall (n : nat) (pts : list point),
    rectangular d pts -> (n < List.length pts)%nat ->
    peq (last (de_casteljau n theta pts) []) (last pts []).
Proof.
  intros Ht. induction n as [|n IH]; intros pts Hr Hn; [apply peq_refl|].
  cbn [de_casteljau].
  eapply peq_trans.
  - apply IH; [apply rectangular_lerp_pairs; exact Hr|].
    rewrite lerp_pairs_length. lia.
  - apply (lerp_pairs_last theta d); [exact Ht | exact Hr | lia].
Qed.

(** A Bezier object on control points of one dimension evaluates to its
    first control point at t = 0 and to its last one at t = 1 (coordinate
    by coordinate, as rationals). *)
Theorem bezier_endpoints (control_points : list point) (d : nat) :
  control_points <> [] ->
  rectangular d control_points ->
  exists b p0 p1,
    Bezier.init control_points = Ok b /\
    Bezier.call b 0 = Ok p0 /\ peq p0 (hd [] control_points) /\
    Bezier.call b 1 = Ok p1 /\ peq p1 (last control_points []).
Proof.
  intros Hne Hr.
  destruct (bezier_call_classical control_points d 0 Hne Hr)
    as (b & p0 & Hinit & Hdc0 & Hc0).
  destruct (bezier_call_classical control_points d 1 Hne Hr)
    as (b' & p1 & Hinit' & Hdc1 & Hc1).
  assert (b' = b) by congruence. subst b'.
  assert (Hpos : (1 <= List.length control_points)%nat).
  { destruct control_points; [congruence | cbn; lia]. }
  exists b, p0, p1. split; [exact Hinit|]. split; [exact Hc0|]. split.
  - pose proof (de_casteljau_head ((0 - 0) / (1 - 0)) d ltac:(reflexivity)
                  (List.length control_points - 1) control_points Hr ltac:(lia)) as Hh.
    rewrite Hdc0 in Hh. exact Hh.
  - split; [exact Hc1|].
    pose proof (de_casteljau_last ((1 - 0) / (1 - 0)) d ltac:(reflexivity)
                  (List.length control_points - 1) control_points Hr ltac:(lia)) as Hl.
    rewrite Hdc1 in Hl. exact Hl.
Qed.

Lemma bezier_endpoints_witness :
  parabola_points <> [] /\
  rectangular 2 parabola_points /\
  exists b p0 p1,
    Bezier.init parabola_points = Ok b /\
    Bezier.call b 0 = Ok p0 /\ peq p0 (hd [] parabola_points) /\
    Bezier.call b 1 = Ok p1 /\ peq p1 (last parabola_points []).
Proof.
  assert (H : parabola_points <> []) by discriminate.
  assert (Hr : rectangular 2 parabola_points) by (repeat constructor).
  split; [exact H | split; [exact Hr |]].
  exact (bezier_endpoints parabola_points 2 H Hr).
Defined.

(** ** Sampling every curve *)

Lemma sequence_map_ok {E A B} (f : A -> result E B) (l : list A) :
  (forall x, In x l -> exists y, f x = Ok y) ->
  exists ys, sequence (map f l) = Ok ys /\ List.length ys = List.length l.
Proof.
  induction l as [|x l IH]; intro Hf.
  - exists []. split; reflexivity.
  - destruct (Hf x (or_introl eq_refl)) as [y Hy].
    destruct IH as [ys [Hys Hlen]]; [intros z Hz; apply Hf; right; exact Hz|].
    exists (y :: ys). cbn [map sequence]. rewrite Hy. cbn [bind]. rewrite Hys.
    split; [reflexivity | cbn; lia].
Qed.

(** For a spline of degree at least 1, [generate_points()] over its own
    [knot_range()] yields one triple per curve and none of them raises:
    each carries [plotres] sample times of the interval [k] and the
    [plotres] points of the curve at those times, on zero-width intervals
    too. *)
Theorem generate_points_total (b : BSpline.t) (margin : Q) :
  (1 <= Knots.degree (BSpline.base b))%Z ->
  len (BSpline.control_points b) =
    (len (Knots.knots (BSpline.base b)) - Knots.degree (BSpline.base b) + 1)%Z ->
  len (Sampling.generate_points b None margin)
    = Z.max 0 (Knots.nb_curves (BSpline.base b)) /\
  Forall (fun item =>
            exists times k vals,
              item = Ok (times, k, vals) /\
              In k (Knots.knot_range (BSpline.base b)) /\
              List.length times = Sampling.plotres /\
              List.length vals = Sampling.plotres)
         (Sampling.generate_points b None margin).
Proof.
  intros Hd Hc. unfold Sampling.generate_points. split.
  - unfold len at 1. rewrite length_map.
    pose proof (proj2 (knot_range_facts (BSpline.base b) 0)) as Hl.
    unfold Knots.degree in Hd.
    destruct (Z.ltb_spec (Knots.length (BSpline.base b)) 0); [lia|].
    exact Hl.
  - apply Forall_map, Forall_forall. intros k Hk.
    pose proof (proj1 (proj1 (knot_range_facts (BSpline.base b) k)) Hk) as [HL Hr].
    unfold Knots.nb_curves in Hr.
    set (kn := Knots.knots (BSpline.base b)) in *.
    assert (Hk0 : py_getitem kn k = Ok (nth (Z.to_nat k) kn 0)).
    { rewrite <- (Z2Nat.id k) at 1 by lia.
      apply py_getitem_nat. unfold len in Hr. lia. }
    assert (Hk1 : py_getitem kn (k + 1) = Ok (nth (Z.to_nat (k + 1)) kn 0)).
    { rewrite <- (Z2Nat.id (k + 1)) at 1 by lia.
      apply py_getitem_nat. unfold len in Hr. lia. }
    rewrite Hk0, Hk1. cbn [bind].
    set (times := np_linspace _ _ Sampling.plotres).
    destruct (sequence_map_ok (fun tm => BSpline.call b tm (Some k)) times)
      as [vals [Hvals Hlen]].
    { intros tm _. apply call_at_index.
      - lia.
      - exact Hc.
      - fold kn. lia. }
    unfold Sampling.call_many. rewrite Hvals. cbn [bind].
    exists times, k, vals. split; [reflexivity|]. split; [exact Hk|].
    assert (Ht : List.length times = Sampling.plotres).
    { unfold times, np_linspace, Sampling.plotres.
      rewrite length_app, length_map, length_seq. reflexivity. }
    split; [exact Ht | congruence].
Qed.

Lemma generate_points_total_witness :
  (1 <= Knots.degree (BSpline.base double_knot_spline))%Z /\
  len (BSpline.control_points double_knot_spline) =
    (len (Knots.knots (BSpline.base double_knot_spline))
     - Knots.degree (BSpline.base double_knot_spline) + 1)%Z /\
  len (Sampling.generate_points double_knot_spline None 0)
    = Z.max 0 (Knots.nb_curves (BSpline.base double_knot_spline)) /\
  Forall (fun item =>
            exists times k vals,
              item = Ok (times, k, vals) /\
              In k (Knots.knot_range (BSpline.base double_knot_spline)) /\
              List.length times = Sampling.plotres /\
              List.length vals = Sampling.plotres)
         (Sampling.generate_points double_knot_spline None 0).
Proof.
  assert (Hd : (1 <= Knots.degree (BSpline.base double_knot_spline))%Z) by discriminate.
  assert (Hc : len (BSpline.control_points double_knot_spline) =
               (len (Knots.knots (BSpline.base double_knot_spline))
                - Knots.degree (BSpline.base double_knot_spline) + 1)%Z) by reflexivity.
  split; [exact Hd | split; [exact Hc |]].
  exact (generate_points_total double_knot_spline 0 Hd Hc).
Defined.

(** ** Greville abscissae of sorted knots *)

Lemma abscissae_entries (K : Knots.t) :
  (1 <= Knots.degree K <= len (Knots.knots K))%Z ->
  exists res,
    Knots.abscissae K = Ok res /\
    List.length res
      = (List.length (Knots.knots K) - Z.to_nat (Knots.degree K) + 1)%nat /\
    forall i, (i < List.length res)%nat ->
      nth i res 0 ==
      qsum (firstn (Z.to_nat (Knots.degree K)) (skipn i (Knots.knots K)))
      / inject_Z (Knots.degree K).
Proof.
  intros [Hd Hn].
  set (deg := Knots.degree K) in *. set (kn := Knots.knots K) in *.
  set (d := Z.to_nat deg). set (c := 1 / inject_Z deg).
  assert (Hdn : (d <= List.length kn)%nat) by (unfold len in Hn; lia).
  assert (Hd1 : (1 <= d)%nat) by lia.
  assert (Hc : forall S, c * S == S / inject_Z deg).
  { intro S. unfold c. field. apply inject_Z_pos. exact Hd. }
  assert (Hab : Knots.abscissae K = np_convolve_valid (repeat c d) kn).
  { unfold Knots.abscissae, np_ones. fold deg.
    destruct (Z.ltb_spec deg 0); [lia|]. cbn [bind].
    rewrite map_repeat. reflexivity. }
  rewrite Hab, np_convolve_valid_nonempty.
  2:{ destruct d; [lia | discriminate]. }
  2:{ destruct kn; [cbn in Hdn; lia | discriminate]. }
  rewrite repeat_length, rev_repeat.
  destruct (Nat.ltb_spec d (List.length kn)) as [Hlt|Hge].
  - eexists. split; [reflexivity|]. split.
    + rewrite correlate_valid_length; rewrite ?repeat_length; lia.
    + intros i Hi. rewrite correlate_valid_nth by exact Hi.
      rewrite dot_repeat_r. apply Hc.
  - assert (Heq : d = List.length kn) by lia.
    eexists. split; [reflexivity|]. split.
    + rewrite correlate_valid_length; rewrite ?repeat_length, ?length_rev; lia.
    + intros i Hi.
      rewrite correlate_valid_length in Hi
        by (rewrite ?repeat_length, ?length_rev; lia).
      rewrite repeat_length, length_rev in Hi.
      assert (i = 0)%nat by lia. subst i.
      rewrite correlate_valid_nth
        by (rewrite correlate_valid_length; rewrite ?repeat_length, ?length_rev; lia).
      cbn [skipn]. rewrite dot_repeat_l.
      rewrite (firstn_all2 (rev kn)) by (rewrite length_rev; lia).
      rewrite (firstn_all2 kn) by lia.
      rewrite qsum_rev. apply Hc.
Qed.

Lemma nondecreasing_nth (l : list Q) :
  nondecreasing l = true ->
  forall i j, (i <= j < List.length l)%nat -> nth i l 0 <= nth j l 0.
Proof.
  induction l as [|x l IH]; intros Hs i j Hij; [cbn in Hij; lia|].
  destruct (nondecreasing_cons x l Hs) as [Hl Hall].
  destruct i as [|i], j as [|j]; try lia.
  - apply Qle_refl.
  - cbn [nth]. rewrite Forall_forall in Hall. apply Hall, nth_In.
    cbn in Hij. lia.
  - cbn [nth]. apply IH; [exact Hl | cbn in Hij; lia].
Qed.

Lemma firstn_snoc (d : nat) (l : list Q) :
  (d < List.length l)%nat -> firstn (S d) l = firstn d l ++ [nth d l 0].
Proof.
  revert l. induction d as [|d IH]; intros [|x l] Hd; cbn in Hd; try lia.
  - reflexivity.
  - rewrite (firstn_cons (S d)), (firstn_cons d). cbn [nth app].
    rewrite (IH l) by lia. reflexivity.
Qed.

(** Moving the window of [d] knots by one place replaces its first entry
    by the entry after its last. *)
Lemma window_shift (d i : nat) (l : list Q) :
  (1 <= d)%nat -> (i + d < List.length l)%nat ->
  qsum (firstn d (skipn (S i) l)) + nth i l 0
  == qsum (firstn d (skipn i l)) + nth (i + d) l 0.
Proof.
  intros Hd Hi. destruct d as [|d]; [lia|].
  rewrite (firstn_snoc d (skipn (S i) l)) by (rewrite length_skipn; lia).
  rewrite (skipn_nth i l 0) by lia. rewrite firstn_cons, qsum_cons.
  rewrite qsum_app, qsum_cons. change (qsum []) with 0.
  assert (Hn : nth d (skipn (S i) l) 0 = nth (i + S d) l 0).
  { rewrite nth_skipn. f_equal. lia. }
  rewrite Hn. ring.
Qed.

(** For non-decreasing knots the Greville abscissae are non-decreasing. *)
Theorem abscissae_sorted (K : Knots.t) (res : list Q) (i : nat) :
  (1 <= Knots.degree K <= len (Knots.knots K))%Z ->
  nondecreasing (Knots.knots K) = true ->
  Knots.abscissae K = Ok res ->
  (S i < List.length res)%nat ->
  nth i res 0 <= nth (S i) res 0.
Proof.
  intros Hd Hs Hres Hi.
  destruct (abscissae_entries K Hd) as [res' [Hres' [Hlen Hnth]]].
  assert (res' = res) by congruence. subst res'.
  rewrite (Hnth i) by lia. rewrite (Hnth (S i)) by exact Hi.
  set (d := Z.to_nat (Knots.degree K)) in *.
  set (kn := Knots.knots K) in *.
  pose proof (window_shift d i kn ltac:(lia) ltac:(lia)) as Hshift.
  pose proof (nondecreasing_nth kn Hs i (i + d) ltac:(lia)) as Hmono.
  assert (Hpos : 0 < inject_Z (Knots.degree K)).
  { unfold Qlt, inject_Z. cbn. lia. }
  apply Qle_shift_div_l; [exact Hpos|].
  unfold Qdiv. rewrite <- Qmult_assoc, (Qmult_comm (/ _)), Qmult_inv_r, Qmult_1_r
    by (intro E; rewrite E in Hpos; discriminate Hpos).
  lra.
Qed.

Lemma abscissae_sorted_witness :
  exists res,
    (1 <= Knots.degree greville_knots <= len (Knots.knots greville_knots))%Z /\
    nondecreasing (Knots.knots greville_knots) = true /\
    Knots.abscissae greville_knots = Ok res /\
    (2 < List.length res)%nat /\
    nth 1 res 0 <= nth 2 res 0.
Proof.
  eexists.
  assert (Hd : (1 <= Knots.degree greville_knots
                <= len (Knots.knots greville_knots))%Z) by (split; discriminate).
  assert (Hs : nondecreasing (Knots.knots greville_knots) = true) by reflexivity.
  match goal with
  | |- _ /\ _ /\ ?A /\ _ => assert (Hr : A) by (vm_compute; reflexivity)
  end.
  assert (Hi : (2 < 7)%nat) by lia.
  split; [exact Hd | split; [exact Hs | split; [exact Hr | split; [exact Hi |]]]].
  exact (abscissae_sorted greville_knots _ 1 Hd Hs Hr Hi).
Defined.

(** ** The generator inside [interior_deformations] stays in range *)

Section Rows.

Context {P V G T : Type} `{Rows T}.
Variable exponential : T -> G.

(** For an object built by the constructor and an array with one row per
    interpolation point, [interior_deformations] raises nothing and returns
    one row per interior point. *)
Theorem interior_deformations_rows (points : list P) (velocities : list V)
    (g : Geometry P V G T) (self : @Interpolator.t P V G T) (D : list T) :
  Interpolator.init points velocities g = Ok self ->
  List.length D = List.length points ->
  exists interior,
    Interpolator.interior_deformations exponential self D = Ok interior /\
    List.length interior = (List.length points - 2)%nat.
Proof.
  intros Hinit HD.
  destruct (init_inv points velocities g self Hinit)
    as (q0 & w0 & q1 & w1 & Hq0 & _ & _ & _ & ->).
  destruct points as [|p [|q ps]]; [discriminate Hq0 | |].
  - destruct D as [|z [|? ?]]; try discriminate HD. exists []. split; reflexivity.
  - pose proof (interior_deformations_closed exponential
                  (Interpolator.mk (p :: q :: ps)
                     [rscale (1 / 3) (connection g q0 w0);
                      rscale (1 / 3) (connection g q1 w1)] g (len (p :: q :: ps)))
                  p eq_refl D HD ltac:(cbn; lia)) as Hclosed.
    eexists. split; [exact Hclosed|].
    rewrite length_map, length_seq. reflexivity.
Qed.

End Rows.

Lemma interior_deformations_rows_witness :
  Interpolator.init [0; 1; 0; 1] [3; -3] line = Ok zigzag_solver /\
  List.length [1; 0; 0; -1] = List.length [0; 1; 0; 1] /\
  exists interior,
    Interpolator.interior_deformations line_exponential zigzag_solver [1; 0; 0; -1]
      = Ok interior /\
    List.length interior = (List.length [0; 1; 0; 1] - 2)%nat.
Proof.
  assert (Hinit : Interpolator.init [0; 1; 0; 1] [3; -3] line = Ok zigzag_solver)
    by (vm_compute; reflexivity).
  split; [exact Hinit | split; [reflexivity |]].
  exact (interior_deformations_rows line_exponential [0; 1; 0; 1] [3; -3] line
           zigzag_solver [1; 0; 0; -1] Hinit eq_refl).
Defined.

(** ** The two characterisations at concrete knots *)

Lemma knot_range_spec_witness :
  (0 <= Knots.length big_knots
   /\ Knots.length big_knots <= 3 < Knots.length big_knots + Knots.nb_curves big_knots)%Z /\
  In 3%Z (Knots.knot_range big_knots).
Proof.
  assert (H : (0 <= Knots.length big_knots
               /\ Knots.length big_knots <= 3
                  < Knots.length big_knots + Knots.nb_curves big_knots)%Z)
    by (vm_compute; repeat split; discriminate).
  split; [exact H | exact (proj2 (proj1 (knot_range_spec big_knots 3)) H)].
Defined.

Lemma abscissae_domain_witness :
  exists res,
    Knots.abscissae greville_knots = Ok res /\
    len res = (Z.abs (len (Knots.knots greville_knots)
                      - Knots.degree greville_knots) + 1)%Z.
Proof.
  eexists.
  match goal with
  | |- ?A /\ _ => assert (H : A) by (vm_compute; reflexivity)
  end.
  split; [exact H | exact (proj2 (abscissae_domain greville_knots) _ H)].
Defined.

(** * Properties that depend on rounding *)

(** ** Boolean arrays *)





(** ** The domain of [left_knot] in binary64 *)

Lemma f64_left_knot_unfold (K : Float64.Knots.t) (t : float) :
  Float64.Knots.left_knot K t =
  if np_all (map (Float64.isrightof t) (Float64.Knots.window K))
  then Raise (ValueError "Time too small")
  else if np_all (map negb (map (Float64.isrightof t) (Float64.Knots.window K)))
       then Raise (ValueError "Time too big")
       else Ok (np_argmax (map (Float64.isrightof t) (Float64.Knots.window K)) - 1
                + Float64.Knots.length K)%Z.
Proof. unfold Float64.Knots.left_knot. rewrite map_map. reflexivity. Qed.





(** ** The knot interval [left_knot] returns, in binary64 *)

Lemma slice_window {A} (l : list A) (L : Z) :
  (1 <= L)%Z -> (2 * L <= len l)%Z ->
  py_slice l (Some L) (Some (- L)%Z) =
  firstn (List.length l - 2 * Z.to_nat L) (skipn (Z.to_nat L) l).
Proof.
  intros HL Hn. unfold py_slice, py_bound, len in *.
  destruct (Z.ltb_spec L 0); [lia|].
  destruct (Z.ltb_spec (- L) 0); [|lia].
  f_equal; [lia|]. f_equal. lia.
Qed.

Lemma slice_window_length {A} (l : list A) (L : Z) :
  (1 <= L)%Z ->
  len (py_slice l (Some L) (Some (- L)%Z)) = Z.max 0 (len l - 2 * L).
Proof.
  intro HL. unfold py_slice, py_bound, len.
  rewrite length_firstn, length_skipn.
  repeat match goal with
         | |- context [(?a <? ?b)%Z] => destruct (Z.ltb_spec a b)
         end; lia.
Qed.

(** When the first usable knot is not right of [t] (as the doubles give
    it), the index [left_knot] returns is a knot number of [knot_range()]
    and its interval brackets the parameter up to the tolerance:
    [knots[k] - t > ktol] is false and [knots[k+1] - t > ktol] is true. *)
Theorem left_knot_bracket (K : Float64.Knots.t) (t first : float) (rest : list float)
    (k : Z) :
  (1 <= Float64.Knots.length K)%Z ->
  Float64.Knots.window K = first :: rest ->
  Float64.isrightof t first = false ->
  Float64.Knots.left_knot K t = Ok k ->
  In k (Float64.Knots.knot_range K) /\
  exists a b,
    py_getitem (Float64.Knots.knots K) k = Ok a /\
    py_getitem (Float64.Knots.knots K) (k + 1) = Ok b /\
    Float64.isrightof t a = false /\ Float64.isrightof t b = true.
Proof.
  intros HL Hw Hf Hk.
  pose proof (slice_window_length (Float64.Knots.knots K) (Float64.Knots.length K) HL)
    as Hlenw.
  change (py_slice (Float64.Knots.knots K) (Some (Float64.Knots.length K))
                   (Some (- Float64.Knots.length K)%Z))
    with (Float64.Knots.window K) in Hlenw.
  set (L := Z.to_nat (Float64.Knots.length K)).
  set (kn := Float64.Knots.knots K) in *.
  assert (Hn : (2 * Float64.Knots.length K + 1 <= len kn)%Z).
  { rewrite Hw, len_cons in Hlenw. pose proof (len_nonneg rest). lia. }
  assert (Hwl : Float64.Knots.window K
                = firstn (List.length kn - 2 * L) (skipn L kn)).
  { apply slice_window; lia. }
  rewrite f64_left_knot_unfold in Hk.
  set (flags := map (Float64.isrightof t) (Float64.Knots.window K)) in *.
  destruct (np_all flags) eqn:Hall; [discriminate|].
  destruct (np_all (map negb flags)) eqn:Hnone; [discriminate|].
  apply Ok_inj in Hk.
  pose proof (np_all_negb_false _ Hnone) as Hex.
  pose proof (np_argmax_range _ Hex) as Hrange.
  pose proof (np_argmax_is_true _ Hex) as Htrue.
  assert (Hlenf : List.length flags = List.length (Float64.Knots.window K)).
  { unfold flags. apply length_map. }
  assert (Hpos : (1 <= np_argmax flags)%Z).
  { unfold flags in Hex |- *. rewrite Hw in Hex |- *. cbn [map] in Hex |- *.
    rewrite Hf in Hex |- *. cbn [existsb orb np_argmax] in Hex |- *.
    rewrite Hex. pose proof (np_argmax_range _ Hex). lia. }
  assert (Hfalse : nth (Z.to_nat (np_argmax flags - 1)) flags true = false).
  { apply np_argmax_is_first; [exact Hex | lia]. }
  set (am := np_argmax flags) in *.
  unfold len in Hrange, Hlenw, Hn. rewrite Hlenf in Hrange.
  assert (Hnthw : forall j, (j < List.length (Float64.Knots.window K))%nat ->
            nth j (Float64.Knots.window K) 0%float = nth (j + L) kn 0%float).
  { intros j Hj. rewrite Hwl in Hj |- *.
    rewrite length_firstn, length_skipn in Hj.
    rewrite (firstn_skipn_seq _ L kn 0%float) by lia.
    rewrite (nth_map_in _ _ j 0%float 0%nat) by (rewrite length_seq; lia).
    rewrite seq_nth by lia. reflexivity. }
  assert (Hnthr : forall j d, (j < List.length (Float64.Knots.window K))%nat ->
            nth j flags d = Float64.isrightof t (nth (j + L) kn 0%float)).
  { intros j d Hj. unfold flags.
    rewrite (nth_map_in _ _ j d 0%float) by exact Hj.
    rewrite Hnthw by exact Hj. reflexivity. }
  rewrite Hnthr in Htrue by lia. rewrite Hnthr in Hfalse by lia.
  split.
  { unfold Float64.Knots.knot_range.
    destruct (Z.ltb_spec (Float64.Knots.length K) 0); [lia|].
    apply in_map_iff. exists (Z.to_nat (am - 1)). split; [lia|].
    apply in_seq. unfold Float64.Knots.nb_curves, len. fold kn. lia. }
  exists (nth (Z.to_nat (am - 1) + L) kn 0%float), (nth (Z.to_nat am + L) kn 0%float).
  replace k with (Z.of_nat (Z.to_nat (am - 1) + L)) at 1 by lia.
  replace (k + 1)%Z with (Z.of_nat (Z.to_nat am + L)) by lia.
  rewrite !(py_getitem_nat _ _ 0%float) by lia.
  repeat split; assumption.
Qed.

Lemma left_knot_bracket_witness :
  (1 <= Float64.Knots.length Float64.big_knots)%Z /\
  Float64.Knots.window Float64.big_knots = [3; 4; 5]%float /\
  Float64.isrightof 3.5 3 = false /\
  Float64.Knots.left_knot Float64.big_knots 3.5 = Ok 2%Z /\
  In 2%Z (Float64.Knots.knot_range Float64.big_knots) /\
  exists a b,
    py_getitem (Float64.Knots.knots Float64.big_knots) 2 = Ok a /\
    py_getitem (Float64.Knots.knots Float64.big_knots) (2 + 1) = Ok b /\
    Float64.isrightof 3.5 a = false /\ Float64.isrightof 3.5 b = true.
Proof.
  assert (HL : (1 <= Float64.Knots.length Float64.big_knots)%Z) by discriminate.
  assert (Hw : Float64.Knots.window Float64.big_knots = [3; 4; 5]%float) by reflexivity.
  assert (Hf : Float64.isrightof 3.5 3 = false) by reflexivity.
  assert (Hk : Float64.Knots.left_knot Float64.big_knots 3.5 = Ok 2%Z) by reflexivity.
  split; [exact HL | split; [exact Hw | split; [exact Hf | split; [exact Hk |]]]].
  exact (left_knot_bracket Float64.big_knots 3.5 3 [4; 5]%float 2 HL Hw Hf Hk).
Defined.

(** ** The parabola in binary64 *)




(** ** Greville abscissae in binary64 *)






